(** * IPTA DR2 figure-of-merit selection: a shallow embedding

    The development follows the notebook [gen_FoM_dataset.ipynb]:

    - [Scorer]: the three figure-of-merit formulas ([bwm_FoM],
      [gwb_FoM_weak], [gwb_FoM_inter]), read as functions on exact real
      numbers.  Rounding, overflow and the extended precision of the numpy
      values are not part of this model.
    - [Binary64]: [bwm_FoM] once more, on binary64 floats, where rounding
      shows.
    - [Numbers]: the numeric leaves of the JSON dictionary with the
      comparison semantics of Python floats (finite values, the two
      infinities and NaN).
    - [Summary]: the body of the [FoM_dict] construction loop, from the
      point where the surviving epochs are known.
    - [Selector]: the [psrdict] selection cell, with Python's [KeyError]
      and the [try]/[except KeyError: pass] handler made explicit. *)

From Stdlib Require Import QArith Reals Lra.
From Stdlib Require PrimFloat.
From stdpp Require Import gmap strings list.

(** ** The FoM scorer *)

Module Scorer.
Local Open Scope R_scope.

(** [np.sqrt(Tobs**3/dt) / TOAerr] *)
Definition bwm_FoM (Tobs dt TOAerr : R) : R :=
  sqrt (Tobs ^ 3 / dt) / TOAerr.

(** [Tobs**(13/3) / TOAerr**2 / dt]; [from __future__ import division]
    makes [13/3] a true division.  A power with a non-integer exponent
    is [Rpower], which agrees with Python's [**] on a positive base. *)
Definition gwb_FoM_weak (Tobs dt TOAerr : R) : R :=
  Rpower Tobs (13 / 3) / TOAerr ^ 2 / dt.

(** [Tobs**(1/2) * (TOAerr**2 * dt) ** (-1/(2*13/3))] *)
Definition gwb_FoM_inter (Tobs dt TOAerr : R) : R :=
  Rpower Tobs (1 / 2) * Rpower (TOAerr ^ 2 * dt) (-1 / (2 * 13 / 3)).

(** [my_FoM = bwm_FoM] *)
Definition my_FoM : R -> R -> R -> R := bwm_FoM.

(** The intermediate-scaling formula in the words of the specification:
    sqrt(T) * (sigma^2 * dt)^(-3/13). *)
Definition spec_gwb_FoM_inter (T dt sigma : R) : R :=
  sqrt T * Rpower (sigma ^ 2 * dt) (- 3 / 13).

End Scorer.

(** ** The burst-with-memory formula on binary64 floats *)

Module Binary64.
Import PrimFloat.
Local Open Scope float_scope.

(** [np.sqrt(Tobs**3/dt) / TOAerr] when the three arguments are Python
    floats: [/] and [np.sqrt] are the correctly rounded IEEE 754 division
    and square root.  The power [**] is the C library's [pow], whose
    rounding the language does not fix; it is the parameter [pow]. *)
Definition bwm_FoM (pow : float -> float -> float)
    (Tobs dt TOAerr : float) : float :=
  sqrt (pow Tobs 3 / dt) / TOAerr.

End Binary64.

(** ** Numbers of the JSON dictionary *)

Module Numbers.

(** A leaf of [FoM_dict] after [json.load]: a finite number (every finite
    float is a rational), [Infinity], [-Infinity] or [NaN]. *)
Inductive number : Type :=
  | Finite (q : Q)
  | PosInf
  | NegInf
  | NaN.

Definition Qltb (a b : Q) : bool := negb (Qle_bool b a).

(** Python's [x < y]: false as soon as one side is NaN. *)
Definition num_lt (x y : number) : bool :=
  match x, y with
  | NaN, _ | _, NaN => false
  | _, NegInf => false
  | PosInf, _ => false
  | NegInf, _ => true
  | Finite _, PosInf => true
  | Finite a, Finite b => Qltb a b
  end.

(** Python's [x > y]. *)
Definition num_gt (x y : number) : bool := num_lt y x.

(** Python's [x <= y]. *)
Definition num_le (x y : number) : bool :=
  match x, y with
  | NaN, _ | _, NaN => false
  | NegInf, _ => true
  | _, PosInf => true
  | _, NegInf => false
  | PosInf, _ => false
  | Finite a, Finite b => Qle_bool a b
  end.

(** Python's [x == y]. *)
Definition num_eq (x y : number) : bool :=
  match x, y with
  | PosInf, PosInf | NegInf, NegInf => true
  | Finite a, Finite b => Qeq_bool a b
  | _, _ => false
  end.

Definition is_nan (x : number) : bool :=
  match x with NaN => true | _ => false end.

Definition zero : number := Finite 0.

End Numbers.
Export Numbers.

(** ** The summarisation step *)

Module Summary.
Section Summarize.

(** The numeric work on the surviving epochs is done by numpy, libstempo
    and enterprise; it is taken as given. *)
Variable toas_span : list number -> number.
      (* psr.toas()[idx].max() - psr.toas()[idx].min() *)
Variable quantization_columns : list number -> number.
      (* U.shape[1] of utils.create_quantization_matrix *)
Variable float_div : number -> number -> number.
Variable harmonic_mean : list number -> number.
      (* 1 / np.mean(1/psr.toaerrs[idx]) *)
Variable my_FoM : number -> number -> number -> number.

(** The four values [Tobs], [sigma], [cadence], [FoM] computed for one
    (pulsar, PTA) pair from the epochs that survive the filter
    ([psr.toas()[idx]] and [psr.toaerrs[idx]]).  [Tobs_raw] only goes to
    the text file and is left out; the later [float(..)] conversion and the
    JSON round trip keep 0 and the infinities as they are. *)
Definition summary_values (toas toaerrs : list number)
  : number * number * number * number :=
  if (0 <? length toas)%nat then
    let cadence := float_div (toas_span toas) (quantization_columns toas) in
    let Tobs := float_div (toas_span toas) (Finite 365.25) in
    let sigma := harmonic_mean toaerrs in
    let FoM := my_FoM Tobs cadence sigma in
    (Tobs, sigma, cadence, FoM)
  else
    (zero, PosInf, PosInf, zero).

(** [FoM_dict[psrName][pta]] once the four keys are stored. *)
Definition summarize (toas toaerrs : list number) : gmap string number :=
  let '(Tobs, sigma, cadence, FoM) := summary_values toas toaerrs in
  <["FoM" := FoM]> (<["sigma" := sigma]> (<["dt" := cadence]>
    (<["Tobs" := Tobs]> ∅))).

End Summarize.
End Summary.

(** ** The selection cell *)

Module Selector.

(** Exceptions of the cell: a failed dictionary lookup. *)
Inductive exn : Type := KeyError (key : string).

Definition result (A : Type) : Type := (exn + A)%type.

Definition ret {A} (a : A) : result A := inr a.

Definition bind {A B} (m : result A) (k : A -> result B) : result B :=
  match m with
  | inl e => inl e
  | inr a => k a
  end.

Notation "'let*' x ':=' m 'in' k" := (bind m (fun x => k))
  (at level 10, x name, m at level 100, k at level 200).

(** [d[k]] *)
Definition getitem {V} (d : gmap string V) (k : string) : result V :=
  match d !! k with
  | Some v => ret v
  | None => inl (KeyError k)
  end.

(** Python's short-circuit [a and b] on conditions that may raise. *)
Definition and_then (a b : result bool) : result bool :=
  let* x := a in if x then b else ret false.

(** The dictionary [best]: [{'pta': .., 'Tobs': .., 'FoM': ..}]. *)
Record best_t : Type := Best {
  best_pta : option string;
  best_Tobs : number;
  best_FoM : number
}.

(** A value of [psrdict]: [{'pta': [..], 'group': [..]}]. *)
Record entry : Type := Entry {
  entry_pta : list string;
  entry_group : list string
}.

(** [best = {'pta':None, 'Tobs':0, 'FoM':0}] *)
Definition best_init : best_t := Best None zero zero.

Section Loop.

Variable FoM_dict : gmap string (gmap string (gmap string number)).
Variable ptas : list string.
Variable backends : gmap string (list string).
Variables Tmin sigmax : number.

(** The body of the [try] block for one PTA. *)
Definition try_body (psrname pta : string) (best : best_t) : result best_t :=
  let* of_psr := getitem FoM_dict psrname in
  let* this := getitem of_psr pta in
  let* c :=
    and_then (let* t := getitem this "Tobs" in ret (num_gt t Tmin))
      (and_then (let* s := getitem this "sigma" in ret (num_lt s sigmax))
         (let* f := getitem this "FoM" in ret (num_gt f (best_FoM best)))) in
  if c : bool then
    let* t := getitem this "Tobs" in
    let* f := getitem this "FoM" in
    ret (Best (Some pta) t f)
  else ret best.

(** [try: ... except KeyError: pass] *)
Definition visit (psrname : string) (best : best_t) (pta : string) : best_t :=
  match try_body psrname pta best with
  | inr best' => best'
  | inl (KeyError _) => best
  end.

(** [for pta in ptas: ...] starting from the initial [best]. *)
Definition best_for (psrname : string) : best_t :=
  fold_left (visit psrname) ptas best_init.

(** What the cell has produced so far: [psrdict] and the printed rows
    (each row keeps the name and [best]; the formatting of the line is not
    modelled). *)
Definition output : Type := (gmap string entry * list (string * best_t))%type.

(** One iteration of [for psrname in psrlist]. *)
Definition select_one (psrname : string) (acc : output) : result output :=
  let best := best_for psrname in
  match best_pta best with
  | Some p =>
      let* g := getitem backends p in
      ret (<[psrname := Entry [p] g]> (fst acc), snd acc ++ [(psrname, best)])
  | None => ret acc
  end.

(** The loop over [psrlist]; an exception stops it and leaves what was
    built so far. *)
Fixpoint select_loop (psrlist : list string) (acc : output)
  : output * option exn :=
  match psrlist with
  | [] => (acc, None)
  | psrname :: rest =>
      match select_one psrname acc with
      | inl e => (acc, Some e)
      | inr acc' => select_loop rest acc'
      end
  end.

(** The whole cell, from [psrdict = {}]. *)
Definition select (psrlist : list string) : output * option exn :=
  select_loop psrlist (∅, []).

(** *** Vocabulary for the statements *)

(** The record of a (pulsar, PTA) pair, when there is one. *)
Definition record_of (psrname pta : string) : option (gmap string number) :=
  match FoM_dict !! psrname with
  | Some of_psr => of_psr !! pta
  | None => None
  end.

(** A record satisfies both thresholds. *)
Definition qualifies (this : gmap string number) : bool :=
  match this !! "Tobs", this !! "sigma" with
  | Some t, Some s => num_gt t Tmin && num_lt s sigmax
  | _, _ => false
  end.

(** The baseline and FoM a PTA offers for a pulsar: those of its record,
    when the record is there, satisfies both thresholds and has an FoM. *)
Definition offer (psrname pta : string) : option (number * number) :=
  match record_of psrname pta with
  | Some this =>
      if qualifies this then
        match this !! "Tobs", this !! "FoM" with
        | Some t, Some f => Some (t, f)
        | _, _ => None
        end
      else None
  | None => None
  end.

(** The record of [pta] has the strictly greatest FoM among the records
    of [psrname] that satisfy both thresholds. *)
Definition strictly_greatest (psrname pta : string) : Prop :=
  exists this f,
    record_of psrname pta = Some this /\ qualifies this = true /\
    this !! "FoM" = Some f /\
    forall q that f',
      q <> pta -> record_of psrname q = Some that ->
      qualifies that = true -> that !! "FoM" = Some f' ->
      num_lt f' f = true.

(** The input mapping without the record of one (pulsar, PTA) pair. *)
Definition remove_record (psrname pta : string)
  : gmap string (gmap string (gmap string number)) :=
  match FoM_dict !! psrname with
  | Some of_psr => <[psrname := delete pta of_psr]> FoM_dict
  | None => FoM_dict
  end.

End Loop.

(** *** The notebook's globals and the cell as a state transformer *)

Record notebook : Type := Notebook {
  nb_FoM_dict : gmap string (gmap string (gmap string number));
  nb_psrlist : list string;
  nb_ptas : list string;
  nb_backends : gmap string (list string);
  nb_Tmin : number;
  nb_sigmax : number;
  nb_psrdict : gmap string entry
}.

Definition set_psrdict (d : gmap string entry) (s : notebook) : notebook :=
  Notebook (nb_FoM_dict s) (nb_psrlist s) (nb_ptas s) (nb_backends s)
    (nb_Tmin s) (nb_sigmax s) d.

(** Running the cell: the new globals, the printed rows and the exception
    that ended the run, if any. *)
Definition run_cell (s : notebook)
  : notebook * list (string * best_t) * option exn :=
  let '((d, printed), e) :=
    select (nb_FoM_dict s) (nb_ptas s) (nb_backends s) (nb_Tmin s)
      (nb_sigmax s) (nb_psrlist s) in
  (set_psrdict d s, printed, e).

(** *** The notebook's configuration *)

(** [ptas = ['PPTA', 'EPTA', 'NANOGrav']] *)
Definition ptas0 : list string := ["PPTA"; "EPTA"; "NANOGrav"].

Definition backends0 : gmap string (list string) :=
  <["NANOGrav" :=
      ["327_ASP"; "430_ASP"; "L-wide_ASP"; "S-wide_ASP";
       "327_PUPPI"; "430_PUPPI"; "L-wide_PUPPI"; "S-wide_PUPPI";
       "Rcvr_800_GASP"; "Rcvr1_2_GASP";
       "Rcvr_800_GUPPI"; "Rcvr1_2_GUPPI"]]>
  (<["PPTA" :=
      ["PDFB_10CM"; "PDFB_20CM"; "PDFB_40CM";
       "CPSR2_20CM"; "CPSR2_50CM";
       "WBCORR_10CM"; "WBCORR_20CM"]]>
  (<["EPTA" :=
      ["EFF.EBPP.1360"; "EFF.EBPP.1410"; "EFF.EBPP.2639";
       "JBO.DFB.1400"; "JBO.DFB.1520";
       "NRT.BON.1400"; "NRT.BON.1600"; "NRT.BON.2000";
       "WSRT.P1.328"; "WSRT.P1.328.C"; "WSRT.P1.323.C";
       "WSRT.P1.382"; "WSRT.P1.382.C"; "WSRT.P1.367.C";
       "WSRT.P1.840"; "WSRT.P1.840.C";
       "WSRT.P1.1380"; "WSRT.P1.1380.C";
       "WSRT.P1.1380.1";
       "WSRT.P1.1380.2"; "WSRT.P1.1380.2.C";
       "WSRT.P1.2273.C"]]> ∅)).

(** [Tmin = 5.0], [sigmax = 10.0] *)
Definition Tmin0 : number := Finite 5.
Definition sigmax0 : number := Finite 10.

End Selector.
Export Selector.

(** ** Concrete inputs *)

Module Examples.

(** A fully populated record [{"Tobs":..,"dt":..,"sigma":..,"FoM":..}]. *)
Definition record (Tobs dt sigma FoM : number) : gmap string number :=
  <["FoM" := FoM]> (<["sigma" := sigma]> (<["dt" := dt]>
    (<["Tobs" := Tobs]> ∅))).

Definition psr : string := "J0000+0000".

(** Two PTAs with different scores; NANOGrav has no record. *)
Definition plain_dict : gmap string (gmap string (gmap string number)) :=
  {[ psr :=
       <["PPTA" := record (Finite 6) (Finite 20) (Finite 2) (Finite 10)]>
       (<["EPTA" := record (Finite 8) (Finite 15) (Finite 1.5) (Finite 25)]>
          ∅) ]}.

(** Two PTAs whose records satisfy both thresholds with the same FoM. *)
Definition tie_dict : gmap string (gmap string (gmap string number)) :=
  {[ psr :=
       <["PPTA" := record (Finite 6) (Finite 20) (Finite 2) (Finite 10)]>
       (<["EPTA" := record (Finite 8) (Finite 15) (Finite 1.5) (Finite 10)]>
          ∅) ]}.

(** The same with both FoM equal to zero. *)
Definition zero_tie_dict : gmap string (gmap string (gmap string number)) :=
  {[ psr :=
       <["PPTA" := record (Finite 6) (Finite 20) (Finite 2) (Finite 0)]>
       (<["EPTA" := record (Finite 8) (Finite 15) (Finite 1.5) (Finite 0)]>
          ∅) ]}.

(** An EPTA record sitting exactly on the baseline threshold. *)
Definition edge_dict : gmap string (gmap string (gmap string number)) :=
  {[ psr :=
       <["PPTA" := record (Finite 6) (Finite 20) (Finite 2) (Finite 10)]>
       (<["EPTA" := record (Finite 5) (Finite 15) (Finite 1.5) (Finite 25)]>
          ∅) ]}.

(** An EPTA record sitting exactly on the uncertainty threshold. *)
Definition edge_sigma_dict : gmap string (gmap string (gmap string number)) :=
  {[ psr :=
       <["PPTA" := record (Finite 6) (Finite 20) (Finite 2) (Finite 10)]>
       (<["EPTA" := record (Finite 8) (Finite 15) (Finite 10) (Finite 25)]>
          ∅) ]}.

(** An EPTA record holding the values stored for zero surviving epochs. *)
Definition sentinel_dict : gmap string (gmap string (gmap string number)) :=
  {[ psr :=
       <["PPTA" := record (Finite 6) (Finite 20) (Finite 2) (Finite 10)]>
       (<["EPTA" := record zero PosInf PosInf zero]> ∅) ]}.

(** An EPTA record without its ['sigma'] field. *)
Definition partial_dict : gmap string (gmap string (gmap string number)) :=
  {[ psr :=
       <["PPTA" := record (Finite 6) (Finite 20) (Finite 2) (Finite 10)]>
       (<["EPTA" := <["FoM" := Finite 25]> (<["Tobs" := Finite 8]> ∅)]>
          ∅) ]}.

End Examples.

(** ** The construction loop of [FoM_dict] for one pulsar *)

Module Construction.
Section Build.

(** The libstempo pulsar object and the calls made on it are taken as
    given: [flagvals psr] is [psr.flagvals('pta')], [filter_psr psr pta
    group] is [dr2u.filter_psr] with
    [filter_dict = {'pta':[pta], 'group':group}], and the two lists are
    [psr.toas()[idx]] and [psr.toaerrs[idx]] for [idx = ~psr.deletedmask()]. *)
Variable psr_t : Type.
Variable flagvals : psr_t -> list string.
Variable filter_psr : psr_t -> string -> list string -> psr_t.
Variable surviving_toas : psr_t -> list number.
Variable surviving_toaerrs : psr_t -> list number.

Variable toas_span : list number -> number.
Variable quantization_columns : list number -> number.
Variable float_div : number -> number -> number.
Variable harmonic_mean : list number -> number.
Variable my_FoM : number -> number -> number -> number.

Variable backends : gmap string (list string).

(** The body of [for pta in ptas]; the state is the pulsar object, which
    each filter replaces, and [FoM_dict[psrName]].  The record is created
    empty ([FoM_dict[psrName][pta] = {}]) before [backends[pta]] is looked
    up, so a [KeyError] there leaves the empty record behind; otherwise
    the four fields are stored in it. *)
Definition build_step (st : psr_t * gmap string (gmap string number))
    (pta : string)
  : (psr_t * gmap string (gmap string number)) * option exn :=
  if bool_decide (pta ∈ flagvals st.1) then
    let of_psr := <[pta := ∅]> st.2 in
    match getitem backends pta with
    | inl e => ((st.1, of_psr), Some e)
    | inr group =>
        let psr := filter_psr st.1 pta group in
        ((psr,
          <[pta := Summary.summarize toas_span quantization_columns float_div
                     harmonic_mean my_FoM
                     (surviving_toas psr) (surviving_toaerrs psr)]> of_psr),
         None)
    end
  else (st, None).

(** The loop over [ptas]; an exception stops it and leaves what was
    stored so far. *)
Fixpoint build_loop (ptas : list string)
    (st : psr_t * gmap string (gmap string number))
  : (psr_t * gmap string (gmap string number)) * option exn :=
  match ptas with
  | [] => (st, None)
  | pta :: rest =>
      match build_step st pta with
      | (st', None) => build_loop rest st'
      | (st', Some e) => (st', Some e)
      end
  end.

(** [FoM_dict[psrName]] after the loop over [ptas], from
    [FoM_dict[psrName] = {}], and the exception that ended the loop, if
    any. *)
Definition build_psr (psr : psr_t) (ptas : list string)
  : gmap string (gmap string number) * option exn :=
  ((build_loop ptas (psr, ∅)).1.2, (build_loop ptas (psr, ∅)).2).

End Build.

(** A record has the four fields ['Tobs'], ['dt'], ['sigma'], ['FoM']. *)
Definition four_fields (this : gmap string number) : Prop :=
  is_Some (this !! "Tobs") /\ is_Some (this !! "dt") /\
  is_Some (this !! "sigma") /\ is_Some (this !! "FoM").

End Construction.
Export Construction.

(** ** The count of pulsars per PTA *)

Module Tally.

(** The body of [for val in psrdict.values()], on the counters
    [(E, N, P)]. *)
Definition tally_step (acc : nat * nat * nat) (val : entry)
  : nat * nat * nat :=
  let '(E, N, P) := acc in
  let val := entry_pta val in
  if bool_decide ("EPTA" ∈ val) then (E + 1, N, P)
  else if bool_decide ("NANOGrav" ∈ val) then (E, N + 1, P)
  else if bool_decide ("PPTA" ∈ val) then (E, N, P + 1)
  else (E, N, P).

(** The loop over given values, from [E,N,P = 0,0,0]. *)
Definition tally_values (vals : list entry) : nat * nat * nat :=
  fold_left tally_step vals (0, 0, 0).

(** The cell: the values of [psrdict] are visited in the order of
    [map_to_list]; the counters do not depend on that order. *)
Definition tally (psrdict : gmap string entry) : nat * nat * nat :=
  tally_values (map_to_list psrdict).*2.

(** [E + N + P]. *)
Definition counts_sum (c : nat * nat * nat) : nat := c.1.1 + c.1.2 + c.2.

End Tally.

(** ** File names *)

Module Paths.

Import Stdlib.Strings.Ascii.

(** Python's [s.split(sep)] for a separator of one character: the pieces
    between the occurrences of [sep], empty pieces included. *)
Fixpoint split_char (sep : ascii) (s : string) : list string :=
  match s with
  | EmptyString => [EmptyString]
  | String c s' =>
      if Ascii.eqb c sep then EmptyString :: split_char sep s'
      else
        match split_char sep s' with
        | piece :: pieces => String c piece :: pieces
        | [] => [String c EmptyString]
        end
  end.

(** [c in s] for one character. *)
Fixpoint occurs (c : ascii) (s : string) : bool :=
  match s with
  | EmptyString => false
  | String c' s' => Ascii.eqb c' c || occurs c s'
  end.

(** [x.split('/')[-1]]; [None] stands for [IndexError]. *)
Definition basename (path : string) : option string :=
  last (split_char "/"%char path).

(** [x.split('/')[-1].split('.')[0]] *)
Definition stem (path : string) : option string :=
  match basename path with
  | Some name => head (split_char "."%char name)
  | None => None
  end.

(** [[x for x in files if x.split('/')[-1].split('.')[0] in psrlist]] *)
Fixpoint keep_listed (psrlist files : list string) : option (list string) :=
  match files with
  | [] => Some []
  | x :: rest =>
      match stem x with
      | None => None
      | Some name =>
          match keep_listed psrlist rest with
          | None => None
          | Some kept =>
              Some (if bool_decide (name ∈ psrlist) then x :: kept else kept)
          end
      end
  end.

End Paths.

(** ** Reading a PAL2 noise file *)

Module Noise.

Import Stdlib.Strings.Ascii.

(** [sub in s] *)
Fixpoint contains (sub s : string) : bool :=
  String.prefix sub s ||
  match s with
  | EmptyString => false
  | String _ s' => contains sub s'
  end.

(** Python's [s.split(sep)] for a separator [sep] that is not empty: the
    string is cut at each occurrence of [sep] found from left to right,
    and [skip] counts the characters of a found occurrence still to be
    passed over. *)
Fixpoint split_from (sep s : string) (skip : nat) : list string :=
  match s with
  | EmptyString => [EmptyString]
  | String c s' =>
      match skip with
      | S k => split_from sep s' k
      | O =>
          if String.prefix sep s
          then EmptyString :: split_from sep s' (String.length sep - 1)
          else
            match split_from sep s' 0 with
            | piece :: pieces => String c piece :: pieces
            | [] => [String c EmptyString]
            end
      end
  end.

Definition split_str (sep s : string) : list string := split_from sep s 0.

(** The characters [str.split()] treats as white space: space, tab, line
    feed, vertical tab, form feed and carriage return. *)
Definition is_space (c : ascii) : bool :=
  let n := nat_of_ascii c in
  Nat.eqb n 32 || (Nat.leb 9 n && Nat.leb n 13).

(** [line.split()]: the maximal runs of characters that are not white
    space. *)
Fixpoint words (s : string) : list string :=
  match s with
  | EmptyString => []
  | String c s' =>
      if is_space c then words s'
      else
        match s' with
        | EmptyString => [String c EmptyString]
        | String c' _ =>
            if is_space c' then String c EmptyString :: words s'
            else
              match words s' with
              | tok :: toks => String c tok :: toks
              | [] => [String c EmptyString]
              end
        end
  end.

(** No character of [s] is white space. *)
Fixpoint spaceless (s : string) : bool :=
  match s with
  | EmptyString => true
  | String c s' => negb (is_space c) && spaceless s'
  end.

(** The exceptions the function can raise. *)
Inductive noise_exn : Type := IndexError | ValueError.

Definition outcome (A : Type) : Type := (noise_exn + A)%type.

(** [l[i]] for [i] = 0 and 1, and [l[-1]]. *)
Definition item0 {A} (l : list A) : outcome A :=
  match l with
  | x :: _ => inr x
  | [] => inl IndexError
  end.

Definition item1 {A} (l : list A) : outcome A :=
  match l with
  | _ :: y :: _ => inr y
  | _ => inl IndexError
  end.

Definition item_last {A} (l : list A) : outcome A :=
  match last l with
  | Some x => inr x
  | None => inl IndexError
  end.

(** [flag = ln[0].split(key)[-1]] *)
Definition flag_after (key : string) (ln : list string) : outcome string :=
  match item0 ln with
  | inl e => inl e
  | inr tok => item_last (split_str key tok)
  end.

(** The [if]/[elif] chain: the parameter name and the flag of a line, or
    [None] when the line holds none of the five keywords ([break]). *)
Definition classify (line : string) (ln : list string)
  : option (outcome (string * string)) :=
  let with_flag par key :=
    match flag_after key ln with
    | inl e => inl e
    | inr flag => inr (par, flag)
    end in
  if contains "efac" line then Some (with_flag "efac" "efac-")
  else if contains "equad" line then Some (with_flag "log10_equad" "equad-")
  else if contains "jitter_q" line
  then Some (with_flag "log10_ecorr" "jitter_q-")
  else if contains "RN-Amplitude" line then Some (inr ("log10_A", ""))
  else if contains "RN-spectral-index" line then Some (inr ("gamma", ""))
  else None.

(** [pname = '_'.join(name)] with [name = [psrname, flag, par]] when
    [flag] is not empty, [[psrname, par]] otherwise. *)
Definition pname (psrname flag par : string) : string :=
  String.concat "_"
    (match flag with
     | EmptyString => [psrname; par]
     | String _ _ => [psrname; flag; par]
     end).

Section Read.

(** [float(s)] is taken as given; [None] stands for [ValueError]. *)
Variable to_float : string -> option number.

(** The body of [for line in lines]; [None] stands for [break]. *)
Definition read_line (psrname : string) (params : gmap string number)
    (line : string) : option (outcome (gmap string number)) :=
  let ln := words line in
  match classify line ln with
  | None => None
  | Some (inl e) => Some (inl e)
  | Some (inr (par, flag)) =>
      Some
        match item1 ln with
        | inl e => inl e
        | inr tok =>
            match to_float tok with
            | None => inl ValueError
            | Some v => inr (<[pname psrname flag par := v]> params)
            end
        end
  end.

Fixpoint read_lines (psrname : string) (lines : list string)
    (params : gmap string number) : outcome (gmap string number) :=
  match lines with
  | [] => inr params
  | line :: rest =>
      match read_line psrname params line with
      | None => inr params
      | Some (inl e) => inl e
      | Some (inr params') => read_lines psrname rest params'
      end
  end.

(** [psrname = noisefile.split('/')[-1].split('_noise.txt')[0]] *)
Definition psrname_of (noisefile : string) : outcome string :=
  match Paths.basename noisefile with
  | None => inl IndexError
  | Some name => item0 (split_str "_noise.txt" name)
  end.

(** The function, given the lines [fin.readlines()] returns. *)
Definition get_noise_from_pal2 (noisefile : string) (lines : list string)
  : outcome (gmap string number) :=
  match psrname_of noisefile with
  | inl e => inl e
  | inr psrname => read_lines psrname lines ∅
  end.

End Read.

End Noise.

(** ** More concrete inputs *)

Module MoreExamples.

Import Examples.

Definition psr2 : string := "J1111+1111".

(** Two pulsars: the first as in [plain_dict], the second seen by
    NANOGrav only. *)
Definition two_dict : gmap string (gmap string (gmap string number)) :=
  <[psr2 :=
      <["NANOGrav" := record (Finite 9) (Finite 14) (Finite 1) (Finite 40)]>
        ∅]> plain_dict.

(** Exact division of finite values, standing in for the floating-point
    one in the example below. *)
Definition example_div (a b : number) : number :=
  match a, b with
  | Finite x, Finite y => Finite (x / y)%Q
  | _, _ => NaN
  end.

(** A pulsar object with the flags PPTA and NANOGrav, of which every
    filter leaves two epochs 2200 days apart, grouped in 110 columns,
    with harmonic-mean uncertainty 2 and FoM 10. *)
Definition build_example (bk : gmap string (list string))
    (ptas : list string)
  : gmap string (gmap string number) * option exn :=
  build_psr unit (fun _ => ["PPTA"; "NANOGrav"]) (fun p _ _ => p)
    (fun _ => [Finite 50000; Finite 52200]) (fun _ => [Finite 2; Finite 2])
    (fun _ => Finite 2200) (fun _ => Finite 110) example_div
    (fun _ => Finite 2) (fun _ _ _ => Finite 10)
    bk tt ptas.

(** A [float] that knows one numeral. *)
Definition to_float_example (s : string) : option number :=
  if String.eqb s "1.05" then Some (Finite 1.05) else None.

Definition newline : string :=
  String (Stdlib.Strings.Ascii.ascii_of_nat 10) EmptyString.

End MoreExamples.

(** ** Order facts on [number] *)

Section NumberOrder.

Lemma Qltb_lt a b : Qltb a b = true <-> (a < b)%Q.
Proof.
  unfold Qltb. rewrite negb_true_iff, <- not_true_iff_false, Qle_bool_iff.
  split; [apply Qnot_le_lt | apply Qlt_not_le].
Qed.

Lemma Qltb_ge a b : Qltb a b = false <-> (b <= a)%Q.
Proof.
  unfold Qltb. rewrite negb_false_iff. apply Qle_bool_iff.
Qed.

Lemma num_lt_irrefl x : num_lt x x = false.
Proof.
  destruct x as [q| | |]; simpl; try reflexivity.
  apply Qltb_ge, Qle_refl.
Qed.

Lemma num_lt_trans x y z :
  num_lt x y = true -> num_lt y z = true -> num_lt x z = true.
Proof.
  destruct x, y, z; simpl; try congruence.
  rewrite !Qltb_lt. apply Qlt_trans.
Qed.

Lemma num_lt_le x y : num_lt x y = true -> num_le x y = true.
Proof.
  destruct x, y; simpl; try congruence.
  rewrite Qltb_lt, Qle_bool_iff. apply Qlt_le_weak.
Qed.

Lemma num_le_refl x : is_nan x = false -> num_le x x = true.
Proof.
  destruct x; simpl; try congruence.
  intros _. apply Qle_bool_iff, Qle_refl.
Qed.

Lemma num_le_trans x y z :
  num_le x y = true -> num_le y z = true -> num_le x z = true.
Proof.
  destruct x, y, z; simpl; try congruence.
  rewrite !Qle_bool_iff. apply Qle_trans.
Qed.

Lemma num_le_lt_trans x y z :
  num_le x y = true -> num_lt y z = true -> num_lt x z = true.
Proof.
  destruct x, y, z; simpl; try congruence.
  rewrite Qle_bool_iff, !Qltb_lt. apply Qle_lt_trans.
Qed.

Lemma num_lt_le_trans x y z :
  num_lt x y = true -> num_le y z = true -> num_lt x z = true.
Proof.
  destruct x, y, z; simpl; try congruence.
  rewrite Qle_bool_iff, !Qltb_lt. apply Qlt_le_trans.
Qed.

(** Away from NaN the order is total. *)
Lemma num_not_lt_le x y :
  is_nan x = false -> is_nan y = false ->
  num_lt x y = false -> num_le y x = true.
Proof.
  destruct x, y; simpl; try congruence.
  intros _ _. rewrite Qltb_ge, Qle_bool_iff. trivial.
Qed.

Lemma num_le_not_lt x y : num_le x y = true -> num_lt y x = false.
Proof.
  destruct x, y; simpl; try congruence.
  rewrite Qle_bool_iff, Qltb_ge. trivial.
Qed.

Lemma num_lt_not_nan_l x y : num_lt x y = true -> is_nan x = false.
Proof. destruct x, y; simpl; congruence. Qed.

Lemma num_lt_not_nan_r x y : num_lt x y = true -> is_nan y = false.
Proof. destruct x, y; simpl; congruence. Qed.

Lemma num_eq_not_lt x y : num_eq x y = true -> num_lt x y = false.
Proof.
  destruct x, y; simpl; try congruence.
  intros H. apply Qeq_bool_iff in H. apply Qltb_ge. rewrite H. apply Qle_refl.
Qed.

Lemma num_eq_sym x y : num_eq x y = num_eq y x.
Proof.
  destruct x as [a| | |], y as [b| | |]; simpl; try reflexivity.
  destruct (Qeq_bool a b) eqn:E, (Qeq_bool b a) eqn:E'; try reflexivity.
  - apply Qeq_bool_iff in E. symmetry in E. apply Qeq_bool_iff in E. congruence.
  - apply Qeq_bool_iff in E'. symmetry in E'. apply Qeq_bool_iff in E'. congruence.
Qed.

Lemma num_eq_le x y : num_eq x y = true -> num_le x y = true.
Proof.
  destruct x, y; simpl; try congruence.
  intros H. apply Qeq_bool_iff in H. apply Qle_bool_iff. rewrite H. apply Qle_refl.
Qed.

End NumberOrder.

(** ** One visit of the selection loop *)

Section VisitFacts.

Variable FoM_dict : gmap string (gmap string (gmap string number)).
Variables Tmin sigmax : number.

Lemma visit_offer psrname best pta :
  visit FoM_dict Tmin sigmax psrname best pta =
  match offer FoM_dict Tmin sigmax psrname pta with
  | Some (t, f) =>
      if num_gt f (best_FoM best) then Best (Some pta) t f else best
  | None => best
  end.
Proof.
  unfold visit, try_body, offer, record_of, qualifies, getitem, and_then.
  destruct (FoM_dict !! psrname) as [of_psr|]; simpl; [|reflexivity].
  destruct (of_psr !! pta) as [this|]; simpl; [|reflexivity].
  destruct (this !! "Tobs") as [t|]; simpl; [|reflexivity].
  destruct (num_gt t Tmin); simpl.
  - destruct (this !! "sigma") as [s|]; simpl; [|reflexivity].
    destruct (num_lt s sigmax); simpl; [|reflexivity].
    destruct (this !! "FoM") as [f|]; simpl; [|reflexivity].
    destruct (num_gt f (best_FoM best)); reflexivity.
  - destruct (this !! "sigma"); reflexivity.
Qed.

Lemma visit_no_offer psrname best pta :
  offer FoM_dict Tmin sigmax psrname pta = None ->
  visit FoM_dict Tmin sigmax psrname best pta = best.
Proof. intros H. rewrite visit_offer, H. reflexivity. Qed.

End VisitFacts.

(** ** The loop over the candidate PTAs *)

Section FoldFacts.

Variable FoM_dict : gmap string (gmap string (gmap string number)).
Variables Tmin sigmax : number.
Variable psrname : string.

Let off := offer FoM_dict Tmin sigmax psrname.
Let step := visit FoM_dict Tmin sigmax psrname.

Lemma num_lt_le_false x y : num_lt x y = true -> num_le y x = false.
Proof.
  intros H. destruct (num_le y x) eqn:E; [|reflexivity].
  apply num_le_not_lt in E. congruence.
Qed.

Lemma not_gt_above b f r :
  num_gt f b = false -> num_le b r = true -> num_gt f r = false.
Proof.
  unfold num_gt. intros Hf Hbr.
  destruct (num_lt r f) eqn:E; [|reflexivity].
  rewrite (num_le_lt_trans _ _ _ Hbr E) in Hf. discriminate.
Qed.

Lemma step_cases b pta :
  (step b pta = b /\
   forall t f, off pta = Some (t, f) -> num_gt f (best_FoM b) = false) \/
  (exists t f, off pta = Some (t, f) /\ num_gt f (best_FoM b) = true /\
               step b pta = Best (Some pta) t f).
Proof.
  unfold step, off. rewrite visit_offer.
  destruct (offer FoM_dict Tmin sigmax psrname pta) as [[t f]|].
  - destruct (num_gt f (best_FoM b)) eqn:E.
    + right. exists t, f. auto.
    + left. split; [reflexivity|]. intros t' f' [= <- <-]. exact E.
  - left. split; [reflexivity|]. intros; discriminate.
Qed.

(** The state of [best] after a run of the loop over [l] from [b0]. *)
Lemma fold_visit_inv (l : list string) : forall b0,
  is_nan (best_FoM b0) = false ->
  let r := fold_left step l b0 in
  is_nan (best_FoM r) = false /\
  num_le (best_FoM b0) (best_FoM r) = true /\
  (forall q t f, q ∈ l -> off q = Some (t, f) ->
                 num_gt f (best_FoM r) = false) /\
  (r = b0 \/
   exists l1 p l2 t f,
     l = l1 ++ p :: l2 /\ off p = Some (t, f) /\ r = Best (Some p) t f /\
     num_gt f (best_FoM b0) = true /\
     forall q t' f', q ∈ l1 -> off q = Some (t', f') -> num_le f f' = false).
Proof.
  induction l as [|a l IH]; intros b0 Hb0; simpl.
  - repeat split; auto using num_le_refl.
    intros q t f Hq. inversion Hq.
  - pose proof (step_cases b0 a) as Hstep.
    generalize dependent (step b0 a). intros b1 Hstep.
    assert (Hb1 : is_nan (best_FoM b1) = false /\
                  num_le (best_FoM b0) (best_FoM b1) = true).
    { destruct Hstep as [[-> _]|(t & f & _ & Hgt & ->)]; simpl.
      - auto using num_le_refl.
      - split; [eapply num_lt_not_nan_r | apply num_lt_le]; exact Hgt. }
    destruct Hb1 as [Hnan1 Hle1].
    destruct (IH b1 Hnan1) as (Hnan & Hle & Hall & Hsel).
    split; [exact Hnan|].
    split; [eapply num_le_trans; eassumption|].
    split.
    + intros q t f Hq Hoff. apply elem_of_cons in Hq as [->|Hq];
        [|eapply Hall; eassumption].
      destruct Hstep as [[-> Hno]|(t' & f' & Hoff' & Hgt & ->)].
      * eapply not_gt_above; [eapply Hno; eassumption|exact Hle].
      * rewrite Hoff in Hoff'. injection Hoff' as <- <-.
        apply num_le_not_lt. exact Hle.
    + destruct Hsel as [Hr|(l1 & p & l2 & t & f & -> & Hoff & Hr & Hgt & Hbefore)].
      * destruct Hstep as [[-> _]|(t & f & Hoff & Hgt & ->)].
        -- left. exact Hr.
        -- right. exists [], a, l, t, f.
           repeat split; auto.
           intros q t' f' Hq. inversion Hq.
      * right. exists (a :: l1), p, l2, t, f.
        repeat split; auto.
        -- eapply num_le_lt_trans; eassumption.
        -- intros q t' f' Hq Hoffq. apply elem_of_cons in Hq as [->|Hq];
             [|eapply Hbefore; eassumption].
           destruct Hstep as [[-> Hno]|(t1 & f1 & Hoff1 & Hgt1 & ->)].
           ++ destruct (num_le f f') eqn:E; [|reflexivity].
              specialize (Hno _ _ Hoffq). unfold num_gt in *.
              rewrite (num_lt_le_trans _ _ _ Hgt E) in Hno. discriminate.
           ++ rewrite Hoffq in Hoff1. injection Hoff1 as <- <-.
              apply num_lt_le_false. exact Hgt.
Qed.

End FoldFacts.

(** ** Extensionality and the outer loop *)

Section SelectFacts.

Variable ptas : list string.
Variable backends : gmap string (list string).
Variables Tmin sigmax : number.

Lemma offer_Some FoM_dict psrname pta t f :
  offer FoM_dict Tmin sigmax psrname pta = Some (t, f) <->
  exists this,
    record_of FoM_dict psrname pta = Some this /\
    qualifies Tmin sigmax this = true /\
    this !! "Tobs" = Some t /\ this !! "FoM" = Some f.
Proof.
  unfold offer. split.
  - destruct (record_of FoM_dict psrname pta) as [this|]; [|discriminate].
    destruct (qualifies Tmin sigmax this) eqn:Hq; [|discriminate].
    destruct (this !! "Tobs") as [t'|] eqn:Ht; [|discriminate].
    destruct (this !! "FoM") as [f'|] eqn:Hf; [|discriminate].
    intros [= <- <-]. exists this. auto.
  - intros (this & -> & -> & -> & ->). reflexivity.
Qed.

Lemma qualifies_true this :
  qualifies Tmin sigmax this = true <->
  exists t s, this !! "Tobs" = Some t /\ this !! "sigma" = Some s /\
              num_gt t Tmin = true /\ num_lt s sigmax = true.
Proof.
  unfold qualifies. split.
  - destruct (this !! "Tobs") as [t|]; [|discriminate].
    destruct (this !! "sigma") as [s|]; [|discriminate].
    intros H. apply andb_true_iff in H. exists t, s. tauto.
  - intros (t & s & -> & -> & -> & ->). reflexivity.
Qed.

(** The loop reads the input mapping only through [offer]. *)
Lemma best_for_ext D1 D2 l psrname :
  (forall pta, offer D1 Tmin sigmax psrname pta =
               offer D2 Tmin sigmax psrname pta) ->
  best_for D1 l Tmin sigmax psrname = best_for D2 l Tmin sigmax psrname.
Proof.
  intros H. unfold best_for. generalize best_init.
  induction l as [|a l IH]; intros b; simpl; [reflexivity|].
  rewrite !visit_offer, H. apply IH.
Qed.

Lemma select_ext D1 D2 psrlist :
  (forall psrname pta, offer D1 Tmin sigmax psrname pta =
                       offer D2 Tmin sigmax psrname pta) ->
  select D1 ptas backends Tmin sigmax psrlist =
  select D2 ptas backends Tmin sigmax psrlist.
Proof.
  intros H. unfold select. generalize (∅ : gmap string entry, @nil (string * best_t)).
  induction psrlist as [|x rest IH]; intros acc; simpl; [reflexivity|].
  unfold select_one. rewrite (best_for_ext D1 D2 ptas x (H x)).
  destruct (best_pta (best_for D2 ptas Tmin sigmax x)) as [p|]; simpl;
    [|apply IH].
  destruct (getitem backends p); simpl; [reflexivity|apply IH].
Qed.

Lemma record_of_remove D psrname pta psrname' pta' :
  record_of (remove_record D psrname pta) psrname' pta' =
  if decide (psrname = psrname' /\ pta = pta') then None
  else record_of D psrname' pta'.
Proof.
  unfold remove_record, record_of.
  destruct (D !! psrname) as [of_psr|] eqn:E.
  - destruct (decide (psrname = psrname')) as [<-|Hne].
    + rewrite lookup_insert_eq, E.
      destruct (decide (pta = pta')) as [<-|Hne'].
      * rewrite lookup_delete_eq, decide_True; auto.
      * rewrite lookup_delete_ne by exact Hne'.
        rewrite decide_False; [reflexivity|]. intros [_ ?]. contradiction.
    + rewrite lookup_insert_ne by exact Hne.
      rewrite decide_False; [reflexivity|]. intros [? _]. contradiction.
  - case_decide as Hd; [|reflexivity].
    destruct Hd as [<- _]. rewrite E. reflexivity.
Qed.

(** A record that makes no offer can be taken out of the input. *)
Lemma no_offer_as_absent D psrname pta psrlist :
  offer D Tmin sigmax psrname pta = None ->
  select D ptas backends Tmin sigmax psrlist =
  select (remove_record D psrname pta) ptas backends Tmin sigmax psrlist.
Proof.
  intros Hno. apply select_ext. intros psrname' pta'.
  unfold offer at 2. rewrite record_of_remove.
  case_decide as Hd; [|reflexivity].
  destruct Hd as [<- <-]. exact Hno.
Qed.

(** A PTA whose visit never changes [best] can be left out of the list. *)
Lemma best_for_skip D l1 pta l2 psrname :
  (forall best, visit D Tmin sigmax psrname best pta = best) ->
  best_for D (l1 ++ pta :: l2) Tmin sigmax psrname =
  best_for D (l1 ++ l2) Tmin sigmax psrname.
Proof.
  intros H. unfold best_for. rewrite !fold_left_app. simpl.
  rewrite H. reflexivity.
Qed.

End SelectFacts.

(** ** What the cell stores and prints *)

Section OutputFacts.

Variable FoM_dict : gmap string (gmap string (gmap string number)).
Variable ptas : list string.
Variable backends : gmap string (list string).
Variables Tmin sigmax : number.

Let off := offer FoM_dict Tmin sigmax.
Let bestof := best_for FoM_dict ptas Tmin sigmax.
Let loop := select_loop FoM_dict ptas backends Tmin sigmax.

Lemma best_for_spec psrname :
  (forall q t f, q ∈ ptas -> off psrname q = Some (t, f) ->
                 num_gt f (best_FoM (bestof psrname)) = false) /\
  (bestof psrname = best_init \/
   exists l1 p l2 t f,
     ptas = l1 ++ p :: l2 /\ off psrname p = Some (t, f) /\
     bestof psrname = Best (Some p) t f /\ num_gt f zero = true /\
     forall q t' f', q ∈ l1 -> off psrname q = Some (t', f') ->
                     num_le f f' = false).
Proof.
  destruct (fold_visit_inv FoM_dict Tmin sigmax psrname ptas best_init
              eq_refl) as (_ & _ & Hall & Hsel).
  split; [exact Hall | exact Hsel].
Qed.

Lemma best_for_chosen psrname p :
  best_pta (bestof psrname) = Some p ->
  exists l1 l2 t f,
    ptas = l1 ++ p :: l2 /\ off psrname p = Some (t, f) /\
    bestof psrname = Best (Some p) t f /\ num_gt f zero = true /\
    forall q t' f', q ∈ l1 -> off psrname q = Some (t', f') ->
                    num_le f f' = false.
Proof.
  intros Hp. destruct (best_for_spec psrname) as [_ [Heq|Hsel]].
  - rewrite Heq in Hp. discriminate.
  - destruct Hsel as (l1 & p' & l2 & t & f & Hl & Hoff & Hr & Hgt & Hb).
    rewrite Hr in Hp. injection Hp as ->.
    exists l1, l2, t, f. auto.
Qed.

Lemma best_for_chosen_in psrname p :
  best_pta (bestof psrname) = Some p -> p ∈ ptas.
Proof.
  intros Hp. destruct (best_for_chosen _ _ Hp) as (l1 & l2 & _ & _ & -> & _).
  apply elem_of_app. right. apply elem_of_cons. auto.
Qed.

(** A positive offer forces a choice. *)
Lemma best_for_some psrname q t f :
  q ∈ ptas -> off psrname q = Some (t, f) -> num_gt f zero = true ->
  is_Some (best_pta (bestof psrname)).
Proof.
  intros Hq Hoff Hgt. destruct (best_for_spec psrname) as [Hall [Heq|Hsel]].
  - specialize (Hall _ _ _ Hq Hoff). rewrite Heq in Hall.
    change (best_FoM best_init) with zero in Hall. congruence.
  - destruct Hsel as (_ & p & _ & t' & f' & _ & _ & -> & _). simpl. eauto.
Qed.

(** Every entry of [psrdict] and every printed row comes from an
    iteration that chose a PTA. *)
Lemma select_loop_sound psrlist : forall acc,
  let out := fst (loop psrlist acc) in
  (forall psrname e, fst out !! psrname = Some e ->
     fst acc !! psrname = Some e \/
     psrname ∈ psrlist /\
     exists p g, best_pta (bestof psrname) = Some p /\
                 backends !! p = Some g /\ e = Entry [p] g) /\
  (forall row, row ∈ snd out ->
     row ∈ snd acc \/
     fst row ∈ psrlist /\ snd row = bestof (fst row) /\
     is_Some (best_pta (snd row))).
Proof.
  induction psrlist as [|x rest IH]; intros acc; simpl.
  - split; auto.
  - unfold loop. simpl. unfold select_one. fold bestof.
    destruct (best_pta (bestof x)) as [p|] eqn:Hp; simpl.
    + unfold getitem. destruct (backends !! p) as [g|] eqn:Hg; simpl.
      * fold loop. destruct (IH (<[x:=Entry [p] g]> (fst acc),
                                 snd acc ++ [(x, bestof x)])) as [H1 H2].
        simpl in *. split.
        -- intros psrname e He. destruct (H1 _ _ He) as [Hin|[Hin Hex]].
           ++ destruct (decide (x = psrname)) as [<-|Hne].
              ** rewrite lookup_insert_eq in Hin. injection Hin as <-.
                 right. split; [apply elem_of_cons; auto|]. eauto.
              ** rewrite lookup_insert_ne in Hin by exact Hne. auto.
           ++ right. split; [apply elem_of_cons; auto|exact Hex].
        -- intros row Hrow. destruct (H2 _ Hrow) as [Hin|(Hin & Hb & Hs)].
           ++ apply elem_of_app in Hin as [Hin|Hin]; [auto|].
              apply list_elem_of_singleton in Hin as ->. simpl.
              right. rewrite Hp. split; [apply elem_of_cons; auto|]. eauto.
           ++ right. split; [apply elem_of_cons; auto|]. auto.
      * split; auto.
    + fold loop. destruct (IH acc) as [H1 H2]. split.
      * intros psrname e He. destruct (H1 _ _ He) as [Hin|[Hin Hex]]; [auto|].
        right. split; [apply elem_of_cons; auto|exact Hex].
      * intros row Hrow. destruct (H2 _ Hrow) as [Hin|(Hin & Hb)]; [auto|].
        right. split; [apply elem_of_cons; auto|exact Hb].
Qed.

(** The loop can only be stopped by a chosen PTA without a [backends]
    entry. *)
Lemma select_loop_exn psrlist : forall acc key,
  snd (loop psrlist acc) = Some (KeyError key) ->
  key ∈ ptas /\ backends !! key = None.
Proof.
  induction psrlist as [|x rest IH]; intros acc key; simpl; [discriminate|].
  unfold loop. simpl. unfold select_one. fold bestof.
  destruct (best_pta (bestof x)) as [p|] eqn:Hp; simpl; [|apply IH].
  unfold getitem. destruct (backends !! p) as [g|] eqn:Hg; simpl; [apply IH|].
  intros [= <-]. split; [eapply best_for_chosen_in; eassumption|exact Hg].
Qed.

Lemma select_loop_completes psrlist acc :
  (forall p, p ∈ ptas -> is_Some (backends !! p)) ->
  snd (loop psrlist acc) = None.
Proof.
  intros Hcov. destruct (snd (loop psrlist acc)) as [[key]|] eqn:E;
    [|reflexivity].
  apply select_loop_exn in E as [Hin Hnone].
  destruct (Hcov _ Hin) as [g Hg]. congruence.
Qed.

(** An entry stored for a pulsar survives the rest of a run. *)
Lemma select_loop_keep psrname p g psrlist : forall acc,
  best_pta (bestof psrname) = Some p -> backends !! p = Some g ->
  fst acc !! psrname = Some (Entry [p] g) ->
  fst (fst (loop psrlist acc)) !! psrname = Some (Entry [p] g).
Proof.
  induction psrlist as [|x rest IH]; intros acc Hp Hg Hacc; simpl; [exact Hacc|].
  unfold loop. simpl. unfold select_one. fold bestof.
  destruct (best_pta (bestof x)) as [p'|] eqn:Hp'; simpl; [|apply IH; auto].
  unfold getitem. destruct (backends !! p') as [g'|] eqn:Hg'; simpl;
    [|exact Hacc].
  apply IH; auto. simpl.
  destruct (decide (x = psrname)) as [->|Hne].
  - rewrite lookup_insert_eq. congruence.
  - rewrite lookup_insert_ne by exact Hne. exact Hacc.
Qed.

(** When the run completes, every listed pulsar with a chosen PTA has its
    entry. *)
Lemma select_loop_found psrname p psrlist : forall acc,
  snd (loop psrlist acc) = None ->
  psrname ∈ psrlist -> best_pta (bestof psrname) = Some p ->
  exists g, backends !! p = Some g /\
            fst (fst (loop psrlist acc)) !! psrname = Some (Entry [p] g).
Proof.
  induction psrlist as [|x rest IH]; intros acc Hdone Hin Hp;
    [inversion Hin|].
  revert Hdone. unfold loop. simpl. unfold select_one. fold bestof.
  destruct (decide (x = psrname)) as [->|Hne].
  - rewrite Hp. simpl. unfold getitem.
    destruct (backends !! p) as [g|] eqn:Hg; simpl; [|discriminate].
    intros _. exists g. split; [reflexivity|].
    apply select_loop_keep; auto. simpl. apply lookup_insert_eq.
  - apply elem_of_cons in Hin as [Heq|Hin]; [congruence|].
    destruct (best_pta (bestof x)) as [p'|]; simpl;
      [|intros Hdone; apply IH; auto].
    unfold getitem. destruct (backends !! p') as [g'|]; simpl; [|discriminate].
    intros Hdone. apply IH; auto.
Qed.

End OutputFacts.

(** ** Ties *)

Section TieFacts.

Variable FoM_dict : gmap string (gmap string (gmap string number)).
Variable ptas : list string.
Variables Tmin sigmax : number.
Variable psrname : string.

Let off := offer FoM_dict Tmin sigmax psrname.
Let chosen := best_for FoM_dict ptas Tmin sigmax psrname.

(** Two ways of pointing at an element of the same list. *)
Lemma two_positions {A} (l1 : list A) : forall a l2 l1' b l2',
  l1 ++ a :: l2 = l1' ++ b :: l2' ->
  (l1 = l1' /\ a = b /\ l2 = l2') \/
  (a ∈ l1' /\ b ∈ l2) \/
  (b ∈ l1 /\ a ∈ l2').
Proof.
  induction l1 as [|x l1 IH]; intros a l2 l1' b l2' H.
  - destruct l1' as [|y l1']; simpl in H; injection H as -> ->.
    + left. auto.
    + right. left. split; [apply elem_of_cons; auto|].
      apply elem_of_app. right. apply elem_of_cons. auto.
  - destruct l1' as [|y l1']; simpl in H; injection H as -> H.
    + right. right. split; [apply elem_of_cons; auto|].
      subst l2'. apply elem_of_app. right. apply elem_of_cons. auto.
    + destruct (IH _ _ _ _ _ H) as [(-> & -> & ->)|[[Ha Hb]|[Hb Ha]]].
      * left. auto.
      * right. left. split; [apply elem_of_cons; auto|exact Hb].
      * right. right. split; [apply elem_of_cons; auto|exact Ha].
Qed.

(** The first candidate to reach the greatest, positive FoM is chosen;
    later candidates with the same FoM do not replace it. *)
Lemma first_best_wins l1 a l2 ta f :
  ptas = l1 ++ a :: l2 ->
  off a = Some (ta, f) ->
  num_gt f zero = true ->
  (forall q t' f', q ∈ l1 -> off q = Some (t', f') -> num_le f f' = false) ->
  (forall q t' f', q ∈ l2 -> off q = Some (t', f') -> num_gt f' f = false) ->
  chosen = Best (Some a) ta f.
Proof.
  intros Hl Hoff Hpos Hbefore Hafter.
  assert (Ha : a ∈ ptas).
  { rewrite Hl. apply elem_of_app. right. apply elem_of_cons. auto. }
  destruct (best_for_some FoM_dict ptas Tmin sigmax psrname a ta f
              Ha Hoff Hpos) as [p Hp].
  destruct (best_for_spec FoM_dict ptas Tmin sigmax psrname) as [Hall _].
  destruct (best_for_chosen FoM_dict ptas Tmin sigmax psrname p Hp)
    as (l1' & l2' & tp & fp & Hl' & Hoffp & Hr & Hposp & Hbeforep).
  fold off chosen in Hall, Hoffp, Hr.
  specialize (Hall a ta f Ha Hoff). rewrite Hr in Hall. simpl in Hall.
  assert (Hfn : is_nan f = false) by (eapply num_lt_not_nan_r; exact Hpos).
  assert (Hfpn : is_nan fp = false) by (eapply num_lt_not_nan_r; exact Hposp).
  assert (Hle : num_le f fp = true)
    by (apply num_not_lt_le; [exact Hfpn | exact Hfn | exact Hall]).
  rewrite Hl in Hl'.
  destruct (two_positions _ _ _ _ _ _ Hl') as [(_ & <- & _)|[[Hin _]|[Hin _]]].
  - rewrite Hoff in Hoffp. injection Hoffp as <- <-. exact Hr.
  - specialize (Hbeforep a ta f Hin Hoff).
    assert (Hlt : num_lt f fp = true).
    { destruct (num_lt f fp) eqn:E; [reflexivity|].
      rewrite (num_not_lt_le f fp Hfn Hfpn E) in Hbeforep. discriminate. }
    assert (Hp2 : p ∈ l2).
    { destruct (two_positions _ _ _ _ _ _ Hl') as [(_ & <- & _)|[[_ H]|[H _]]].
      - rewrite Hoff in Hoffp. injection Hoffp as <- <-.
        rewrite num_lt_irrefl in Hlt. discriminate.
      - exact H.
      - specialize (Hbefore p tp fp H Hoffp). congruence. }
    specialize (Hafter p tp fp Hp2 Hoffp). unfold num_gt in Hafter. congruence.
  - specialize (Hbefore p tp fp Hin Hoffp). congruence.
Qed.

(** Of two candidates with equal FoM, the later one is never chosen. *)
Lemma later_tie_loses l1 a l2 b ta fa tb fb :
  ptas = l1 ++ a :: l2 -> b ∉ l1 -> a <> b ->
  off a = Some (ta, fa) -> off b = Some (tb, fb) ->
  num_eq fa fb = true ->
  best_pta chosen <> Some b.
Proof.
  intros Hl Hnb Hab Hoffa Hoffb Heq Hp.
  destruct (best_for_chosen FoM_dict ptas Tmin sigmax psrname b Hp)
    as (l1' & l2' & t & f & Hl' & Hoff' & _ & _ & Hbefore).
  fold off in Hoff', Hbefore.
  rewrite Hoffb in Hoff'. injection Hoff' as <- <-.
  rewrite Hl in Hl'.
  destruct (two_positions _ _ _ _ _ _ Hl') as [(_ & ? & _)|[[Hin _]|[Hin _]]].
  - contradiction.
  - specialize (Hbefore a ta fa Hin Hoffa).
    rewrite num_eq_sym in Heq. apply num_eq_le in Heq. congruence.
  - contradiction.
Qed.

End TieFacts.

(** ** Properties of the selection cell *)

Section SelectionClaims.

Variable FoM_dict : gmap string (gmap string (gmap string number)).
Variable ptas : list string.
Variable backends : gmap string (list string).
Variables Tmin sigmax : number.
Variable psrlist : list string.

Let psrdict := (select FoM_dict ptas backends Tmin sigmax psrlist).1.1.
Let printed := (select FoM_dict ptas backends Tmin sigmax psrlist).1.2.

(** What [select_loop_sound] says of a run from the empty [psrdict]. *)
Lemma psrdict_entry psrname e :
  psrdict !! psrname = Some e ->
  psrname ∈ psrlist /\
  exists p g, best_pta (best_for FoM_dict ptas Tmin sigmax psrname) = Some p /\
              backends !! p = Some g /\ e = Entry [p] g.
Proof.
  intros He.
  destruct (select_loop_sound FoM_dict ptas backends Tmin sigmax psrlist
              (∅, [])) as [H _].
  destruct (H psrname e He) as [Hin|Hex]; [|exact Hex].
  simpl in Hin. rewrite lookup_empty in Hin. discriminate.
Qed.

Lemma printed_row row :
  row ∈ printed ->
  row.1 ∈ psrlist /\
  row.2 = best_for FoM_dict ptas Tmin sigmax row.1 /\
  is_Some (best_pta row.2).
Proof.
  intros Hrow.
  destruct (select_loop_sound FoM_dict ptas backends Tmin sigmax psrlist
              (∅, [])) as [_ H].
  destruct (H row Hrow) as [Hin|Hex]; [|exact Hex].
  simpl in Hin. inversion Hin.
Qed.

(** C1 (amended): a pulsar has at most one entry in [psrdict], naming one
    PTA.  That PTA is a candidate whose record satisfies
    [Tobs > Tmin] and [sigma < sigmax]; no candidate's record satisfying
    both thresholds has a greater FoM, and every such record of a
    candidate earlier in [ptas] has a smaller one, so the first candidate
    to reach the greatest FoM is the one chosen.  A pulsar none of whose
    candidate records satisfies both thresholds has no entry. *)
Theorem selected_is_first_greatest psrname :
  (forall e, psrdict !! psrname = Some e ->
     exists p l1 l2 this f,
       entry_pta e = [p] /\ ptas = l1 ++ p :: l2 /\
       record_of FoM_dict psrname p = Some this /\
       qualifies Tmin sigmax this = true /\
       this !! "FoM" = Some f /\
       (forall q that f',
          q ∈ ptas -> record_of FoM_dict psrname q = Some that ->
          qualifies Tmin sigmax that = true -> that !! "FoM" = Some f' ->
          num_gt f' f = false) /\
       (forall q that f',
          q ∈ l1 -> record_of FoM_dict psrname q = Some that ->
          qualifies Tmin sigmax that = true -> that !! "FoM" = Some f' ->
          num_lt f' f = true \/ is_nan f' = true)) /\
  ((forall q that,
      q ∈ ptas -> record_of FoM_dict psrname q = Some that ->
      qualifies Tmin sigmax that = false) ->
   psrdict !! psrname = None).
Proof.
  split.
  - intros e He.
    destruct (psrdict_entry _ _ He) as (_ & p & g & Hp & _ & ->).
    destruct (best_for_chosen _ _ _ _ _ _ Hp)
      as (l1 & l2 & t & f & Hl & Hoff & Hr & Hpos & Hbefore).
    destruct (best_for_spec FoM_dict ptas Tmin sigmax psrname) as [Hall _].
    rewrite Hr in Hall. simpl in Hall.
    apply offer_Some in Hoff as (this & Hrec & Hq & Ht & Hf).
    exists p, l1, l2, this, f. repeat split; auto.
    + intros q that f' Hin Hrec' Hq' Hf'.
      apply qualifies_true in Hq' as Hq''.
      destruct Hq'' as (t' & s' & Ht' & _).
      apply (Hall q t' f' Hin). apply offer_Some. exists that. auto.
    + intros q that f' Hin Hrec' Hq' Hf'.
      apply qualifies_true in Hq' as Hq''.
      destruct Hq'' as (t' & s' & Ht' & _).
      assert (Hoff' : offer FoM_dict Tmin sigmax psrname q = Some (t', f'))
        by (apply offer_Some; exists that; auto).
      specialize (Hbefore q t' f' Hin Hoff').
      destruct (is_nan f') eqn:En; [auto|left].
      destruct (num_lt f' f) eqn:E; [reflexivity|].
      rewrite (num_not_lt_le f' f En (num_lt_not_nan_r _ _ Hpos) E) in Hbefore.
      discriminate.
  - intros Hnone. destruct (psrdict !! psrname) as [e|] eqn:He; [|reflexivity].
    destruct (psrdict_entry _ _ He) as (_ & p & g & Hp & _ & _).
    destruct (best_for_chosen _ _ _ _ _ _ Hp)
      as (l1 & l2 & t & f & Hl & Hoff & _).
    apply offer_Some in Hoff as (this & Hrec & Hq & _).
    rewrite (Hnone p this) in Hq; [discriminate| |exact Hrec].
    rewrite Hl. apply elem_of_app. right. apply elem_of_cons. auto.
Qed.

(** C10: every entry of [psrdict] and every printed row belongs to a
    [best] with [FoM > 0] and [Tobs > Tmin]; a pulsar all of whose
    candidate records satisfying the thresholds have [FoM == 0] gets no
    entry. *)
Theorem assignment_positive psrname :
  (forall e, psrdict !! psrname = Some e ->
     let best := best_for FoM_dict ptas Tmin sigmax psrname in
     (exists p, entry_pta e = [p] /\ best_pta best = Some p) /\
     num_gt (best_FoM best) zero = true /\
     num_gt (best_Tobs best) Tmin = true) /\
  (forall row, row ∈ printed ->
     num_gt (best_FoM row.2) zero = true /\
     num_gt (best_Tobs row.2) Tmin = true) /\
  ((forall q that f,
      q ∈ ptas -> record_of FoM_dict psrname q = Some that ->
      qualifies Tmin sigmax that = true -> that !! "FoM" = Some f ->
      num_eq f zero = true) ->
   psrdict !! psrname = None).
Proof.
  assert (Hbest : forall name p,
    best_pta (best_for FoM_dict ptas Tmin sigmax name) = Some p ->
    num_gt (best_FoM (best_for FoM_dict ptas Tmin sigmax name)) zero = true /\
    num_gt (best_Tobs (best_for FoM_dict ptas Tmin sigmax name)) Tmin = true).
  { intros name p Hp.
    destruct (best_for_chosen _ _ _ _ _ _ Hp)
      as (l1 & l2 & t & f & _ & Hoff & -> & Hpos & _). simpl.
    split; [exact Hpos|].
    apply offer_Some in Hoff as (this & _ & Hq & Ht & _).
    apply qualifies_true in Hq as (t' & s' & Ht' & _ & Hgt & _). congruence. }
  split; [|split].
  - intros e He. destruct (psrdict_entry _ _ He) as (_ & p & g & Hp & _ & ->).
    split; [exists p; auto|]. exact (Hbest _ _ Hp).
  - intros row Hrow. destruct (printed_row _ Hrow) as (_ & -> & [p Hp]).
    exact (Hbest _ _ Hp).
  - intros Hzero. destruct (psrdict !! psrname) as [e|] eqn:He; [|reflexivity].
    destruct (psrdict_entry _ _ He) as (_ & p & g & Hp & _ & _).
    destruct (best_for_chosen _ _ _ _ _ _ Hp)
      as (l1 & l2 & t & f & Hl & Hoff & _ & Hpos & _).
    apply offer_Some in Hoff as (this & Hrec & Hq & _ & Hf).
    assert (Hin : p ∈ ptas).
    { rewrite Hl. apply elem_of_app. right. apply elem_of_cons. auto. }
    specialize (Hzero p this f Hin Hrec Hq Hf).
    rewrite num_eq_sym in Hzero. apply num_eq_not_lt in Hzero.
    unfold num_gt in Hpos. congruence.
Qed.

End SelectionClaims.

(** ** Records that are skipped *)

Section SkipClaims.

Variable FoM_dict : gmap string (gmap string (gmap string number)).
Variable ptas : list string.
Variable backends : gmap string (list string).
Variables Tmin sigmax : number.
Variable psrlist : list string.
Variables psrname pta : string.

Lemma unqualified_no_offer this :
  record_of FoM_dict psrname pta = Some this ->
  qualifies Tmin sigmax this = false ->
  offer FoM_dict Tmin sigmax psrname pta = None.
Proof. unfold offer. intros -> ->. reflexivity. Qed.

(** C3: a record whose [Tobs] equals [Tmin], or whose [sigma] equals
    [sigmax], does not satisfy the thresholds: the visit leaves [best] as
    it was, and the cell gives what it gives without that record. *)
Theorem threshold_is_strict this :
  record_of FoM_dict psrname pta = Some this ->
  (exists t, this !! "Tobs" = Some t /\ num_eq t Tmin = true) \/
  (exists s, this !! "sigma" = Some s /\ num_eq s sigmax = true) ->
  qualifies Tmin sigmax this = false /\
  (forall best, visit FoM_dict Tmin sigmax psrname best pta = best) /\
  select FoM_dict ptas backends Tmin sigmax psrlist =
  select (remove_record FoM_dict psrname pta) ptas backends Tmin sigmax
    psrlist.
Proof.
  intros Hrec Hedge.
  assert (Hq : qualifies Tmin sigmax this = false).
  { unfold qualifies.
    destruct Hedge as [(t & -> & Heq)|(s & Hs & Heq)].
    - rewrite num_eq_sym in Heq. apply num_eq_not_lt in Heq.
      unfold num_gt. rewrite Heq. destruct (this !! "sigma"); reflexivity.
    - rewrite Hs. apply num_eq_not_lt in Heq. rewrite Heq.
      destruct (this !! "Tobs"); [apply andb_false_r|reflexivity]. }
  pose proof (unqualified_no_offer this Hrec Hq) as Hno.
  split; [exact Hq|]. split.
  - intros best. apply visit_no_offer. exact Hno.
  - apply no_offer_as_absent. exact Hno.
Qed.

(** C6: when the record of (pulsar, PTA) is absent, the lookup in the
    [try] block raises [KeyError], the handler leaves [best] as it was,
    the loop goes on with the other PTAs, and the run is not stopped: with
    a [backends] entry for every candidate PTA the cell ends without an
    exception. *)
Theorem absent_record_skipped :
  record_of FoM_dict psrname pta = None ->
  (exists key, forall best,
     try_body FoM_dict Tmin sigmax psrname pta best = inl (KeyError key)) /\
  (forall best, visit FoM_dict Tmin sigmax psrname best pta = best) /\
  (forall l1 l2, ptas = l1 ++ pta :: l2 ->
     best_for FoM_dict ptas Tmin sigmax psrname =
     best_for FoM_dict (l1 ++ l2) Tmin sigmax psrname) /\
  ((forall p, p ∈ ptas -> is_Some (backends !! p)) ->
   (select FoM_dict ptas backends Tmin sigmax psrlist).2 = None).
Proof.
  intros Hrec.
  assert (Hraise : exists key, forall best,
    try_body FoM_dict Tmin sigmax psrname pta best = inl (KeyError key)).
  { unfold record_of in Hrec. unfold try_body, getitem.
    destruct (FoM_dict !! psrname) as [of_psr|]; simpl.
    - rewrite Hrec. simpl. exists pta. reflexivity.
    - exists psrname. reflexivity. }
  assert (Hskip : forall best,
    visit FoM_dict Tmin sigmax psrname best pta = best).
  { intros best. destruct Hraise as [key Hkey]. unfold visit.
    rewrite Hkey. reflexivity. }
  split; [exact Hraise|]. split; [exact Hskip|]. split.
  - intros l1 l2 ->. apply best_for_skip. exact Hskip.
  - intros Hcov. apply select_loop_completes. exact Hcov.
Qed.

(** C9: a record that is present but lacks ['Tobs'], ['sigma'] or ['FoM']
    is skipped like an absent one.  The [try] block either raises
    [KeyError] on a missing field, which the handler catches, or finds the
    condition false before it reaches that field; [best] is left as it
    was, and the cell gives what it gives without that record. *)
Theorem partial_record_skipped this :
  record_of FoM_dict psrname pta = Some this ->
  this !! "Tobs" = None \/ this !! "sigma" = None \/ this !! "FoM" = None ->
  (forall best,
     (exists key, this !! key = None /\
        try_body FoM_dict Tmin sigmax psrname pta best = inl (KeyError key)) \/
     try_body FoM_dict Tmin sigmax psrname pta best = inr best) /\
  (forall best, visit FoM_dict Tmin sigmax psrname best pta = best) /\
  select FoM_dict ptas backends Tmin sigmax psrlist =
  select (remove_record FoM_dict psrname pta) ptas backends Tmin sigmax
    psrlist.
Proof.
  intros Hrec Hmiss.
  assert (Hbody : forall best,
    (exists key, this !! key = None /\
       try_body FoM_dict Tmin sigmax psrname pta best = inl (KeyError key)) \/
    try_body FoM_dict Tmin sigmax psrname pta best = inr best).
  { intros best. unfold record_of in Hrec. unfold try_body, getitem, and_then.
    destruct (FoM_dict !! psrname) as [of_psr|]; [|discriminate]. simpl.
    rewrite Hrec. simpl.
    destruct (this !! "Tobs") as [t|] eqn:Ht; simpl; [|left; eauto].
    destruct (num_gt t Tmin); simpl; [|right; reflexivity].
    destruct (this !! "sigma") as [s|] eqn:Hs; simpl; [|left; eauto].
    destruct (num_lt s sigmax); simpl; [|right; reflexivity].
    destruct (this !! "FoM") as [f|] eqn:Hf; simpl; [|left; eauto].
    destruct Hmiss as [?|[?|?]]; discriminate. }
  assert (Hskip : forall best,
    visit FoM_dict Tmin sigmax psrname best pta = best).
  { intros best. unfold visit.
    destruct (Hbody best) as [(key & _ & ->) | ->]; reflexivity. }
  split; [exact Hbody|]. split; [exact Hskip|].
  apply no_offer_as_absent. unfold offer, qualifies. rewrite Hrec.
  destruct (this !! "Tobs") as [t|]; [|reflexivity].
  destruct (this !! "sigma") as [s|];
    [|destruct Hmiss as [?|[?|?]]; congruence || reflexivity].
  destruct (num_gt t Tmin && num_lt s sigmax); [|reflexivity].
  destruct (this !! "FoM"); [|reflexivity].
  destruct Hmiss as [?|[?|?]]; discriminate.
Qed.

End SkipClaims.

(** ** Zero surviving epochs *)

Section SentinelClaim.

Variable toas_span : list number -> number.
Variable quantization_columns : list number -> number.
Variable float_div : number -> number -> number.
Variable harmonic_mean : list number -> number.
Variable my_FoM : number -> number -> number -> number.

Let summarize :=
  Summary.summarize toas_span quantization_columns float_div harmonic_mean
    my_FoM.

Lemma summarize_no_epochs toaerrs :
  summarize [] toaerrs = Examples.record zero PosInf PosInf zero.
Proof. reflexivity. Qed.

(** C5: with no surviving epoch the summarisation stores [Tobs = 0],
    [sigma = inf], [dt = inf], [FoM = 0]; for positive thresholds both
    threshold comparisons of the selection are false on that record, so
    the visit leaves [best] as it was and the cell gives what it gives
    without the record. *)
Theorem sentinel_is_excluded toaerrs FoM_dict ptas backends Tmin sigmax
    psrlist psrname pta :
  num_gt Tmin zero = true -> num_gt sigmax zero = true ->
  record_of FoM_dict psrname pta = Some (summarize [] toaerrs) ->
  (summarize [] toaerrs !! "Tobs" = Some zero /\
   summarize [] toaerrs !! "sigma" = Some PosInf /\
   summarize [] toaerrs !! "dt" = Some PosInf /\
   summarize [] toaerrs !! "FoM" = Some zero) /\
  (num_gt zero Tmin = false /\ num_lt PosInf sigmax = false) /\
  qualifies Tmin sigmax (summarize [] toaerrs) = false /\
  (forall best, visit FoM_dict Tmin sigmax psrname best pta = best) /\
  select FoM_dict ptas backends Tmin sigmax psrlist =
  select (remove_record FoM_dict psrname pta) ptas backends Tmin sigmax
    psrlist.
Proof.
  intros HT Hs Hrec.
  assert (Hcmp : num_gt zero Tmin = false /\ num_lt PosInf sigmax = false).
  { split.
    - unfold num_gt in *. apply num_le_not_lt, num_lt_le. exact HT.
    - destruct sigmax; reflexivity. }
  assert (Hq : qualifies Tmin sigmax (summarize [] toaerrs) = false).
  { rewrite summarize_no_epochs. unfold qualifies, Examples.record.
    rewrite !lookup_insert_ne by discriminate. rewrite lookup_insert_eq.
    rewrite lookup_insert_ne by discriminate. rewrite lookup_insert_eq.
    destruct Hcmp as [-> _]. reflexivity. }
  pose proof (unqualified_no_offer _ _ _ _ _ _ Hrec Hq) as Hno.
  split; [repeat split|]. split; [exact Hcmp|]. split; [exact Hq|]. split.
  - intros best. apply visit_no_offer. exact Hno.
  - apply no_offer_as_absent. exact Hno.
Qed.

End SentinelClaim.

(** ** Running the cell again *)

Section PurityClaim.

(** C8: the cell starts from [psrdict = {}] and changes nothing it reads,
    so its result does not depend on the [psrdict] left by an earlier
    run, and running it on the state it has produced gives the same
    [psrdict], the same printed rows and the same outcome. *)
Theorem run_cell_idempotent (s : notebook) :
  let s' := (run_cell s).1.1 in
  run_cell s' = run_cell s /\
  (forall d, run_cell (set_psrdict d s) = run_cell s) /\
  nb_FoM_dict s' = nb_FoM_dict s /\ nb_psrlist s' = nb_psrlist s /\
  nb_ptas s' = nb_ptas s /\ nb_backends s' = nb_backends s /\
  nb_Tmin s' = nb_Tmin s /\ nb_sigmax s' = nb_sigmax s.
Proof.
  destruct s as [D psrs cands bk tmin smax d0]. unfold run_cell. simpl.
  destruct (select D cands bk tmin smax psrs) as [[d printed] e] eqn:E.
  simpl. rewrite E. auto 10.
Qed.

End PurityClaim.

(** ** Ties between the best records *)

Section TieClaim.

Variable FoM_dict : gmap string (gmap string (gmap string number)).
Variable ptas : list string.
Variable backends : gmap string (list string).
Variables Tmin sigmax : number.
Variable psrlist : list string.
Variable psrname : string.

(** C4 (amended): when two or more candidate records satisfying the
    thresholds share the greatest FoM and that FoM is greater than 0, the
    PTA chosen is the one of them that comes first in [ptas]: [a] is
    listed before [b], no candidate before [a] reaches the FoM of [a] and
    none after it exceeds it.  Then [best] ends as the record of [a], and
    a completed run over a list containing the pulsar stores [a] for it. *)
Theorem first_of_tied_best_assigned l1 a l2 b ta tb f fb :
  ptas = l1 ++ a :: l2 -> b ∈ l2 ->
  offer FoM_dict Tmin sigmax psrname a = Some (ta, f) ->
  offer FoM_dict Tmin sigmax psrname b = Some (tb, fb) ->
  num_eq f fb = true ->
  num_gt f zero = true ->
  (forall q t' f', q ∈ l1 ->
     offer FoM_dict Tmin sigmax psrname q = Some (t', f') ->
     num_le f f' = false) ->
  (forall q t' f', q ∈ l2 ->
     offer FoM_dict Tmin sigmax psrname q = Some (t', f') ->
     num_gt f' f = false) ->
  best_for FoM_dict ptas Tmin sigmax psrname = Best (Some a) ta f /\
  (psrname ∈ psrlist ->
   (select FoM_dict ptas backends Tmin sigmax psrlist).2 = None ->
   exists g,
     backends !! a = Some g /\
     (select FoM_dict ptas backends Tmin sigmax psrlist).1.1 !! psrname =
     Some (Entry [a] g)).
Proof.
  intros Hl Hb Hoffa Hoffb Heq Hpos Hbefore Hafter.
  assert (Hbest : best_for FoM_dict ptas Tmin sigmax psrname =
                  Best (Some a) ta f)
    by (eapply first_best_wins; eassumption).
  split; [exact Hbest|].
  intros Hin Hdone. apply select_loop_found; [exact Hdone|exact Hin|].
  rewrite Hbest. reflexivity.
Qed.

End TieClaim.

(** ** The scorer formulas *)

Section ScorerClaims.

Import Scorer.
Local Open Scope R_scope.



Lemma div_increasing_l x y d : 0 < d -> x < y -> x / d < y / d.
Proof.
  intros Hd Hxy. unfold Rdiv. apply Rmult_lt_compat_r; [|exact Hxy].
  apply Rinv_0_lt_compat. exact Hd.
Qed.

Lemma div_decreasing_r x d d' : 0 < x -> 0 < d -> d < d' -> x / d' < x / d.
Proof.
  intros Hx Hd Hdd. unfold Rdiv. apply Rmult_lt_compat_l; [exact Hx|].
  apply Rinv_lt_contravar; [|exact Hdd]. apply Rmult_lt_0_compat; lra.
Qed.


Lemma Rpower_exponent_inj x a b :
  1 < x -> Rpower x a = Rpower x b -> a = b.
Proof.
  intros Hx H. unfold Rpower in H. apply exp_inv in H.
  assert (Hln : 0 < ln x) by (rewrite <- ln_1; apply ln_increasing; lra).
  apply Rmult_eq_reg_r in H; [exact H|lra].
Qed.

(** C2 (amended): for positive arguments [gwb_FoM_inter] is
    sqrt(T) * (sigma^2 * dt)^(-3/26): the exponent written in the code,
    [-1/(2*13/3)], is -3/26. *)
Theorem gwb_FoM_inter_value (T dt sigma : R) :
  0 < T -> 0 < dt -> 0 < sigma ->
  gwb_FoM_inter T dt sigma = sqrt T * Rpower (sigma ^ 2 * dt) (- 3 / 26).
Proof.
  intros HT Hdt Hs. unfold gwb_FoM_inter.
  replace (1 / 2) with (/ 2) by lra.
  rewrite (Rpower_sqrt T HT).
  replace (-1 / (2 * 13 / 3)) with (- 3 / 26) by lra.
  reflexivity.
Qed.

End ScorerClaims.

(** ** The theorems at concrete inputs *)

Section Instances.

Import Examples.

Ltac candidates H :=
  repeat (apply elem_of_cons in H as [->|H]); [..|apply elem_of_nil in H; destruct H].

(** The two end-to-end runs of the specification, with PPTA and EPTA in
    the roles of A and B. *)
Example plain_run :
  entry_pta <$> (select plain_dict ptas0 backends0 Tmin0 sigmax0 [psr]).1.1 !! psr
    = Some ["EPTA"] /\
  (select plain_dict ptas0 backends0 Tmin0 sigmax0 [psr]).1.2
    = [(psr, Best (Some "EPTA") (Finite 8) (Finite 25))] /\
  (select plain_dict ptas0 backends0 Tmin0 sigmax0 [psr]).2 = None.
Proof. repeat split; vm_compute; reflexivity. Qed.

Example tight_sigmax_run :
  select plain_dict ptas0 backends0 Tmin0 (Finite 1) [psr] = ((∅, []), None).
Proof. vm_compute. reflexivity. Qed.

(** A candidate PTA without a [backends] entry stops the cell. *)
Example missing_backends_run :
  (select plain_dict ptas0 (delete "EPTA" backends0) Tmin0 sigmax0 [psr]).2
    = Some (KeyError "EPTA").
Proof. vm_compute. reflexivity. Qed.

(** C1, as first stated, fails on a tie: both records of [tie_dict]
    satisfy the thresholds with FoM 10, the cell stores PPTA, and the
    record of PPTA is not strictly greater than that of EPTA. *)
Lemma tie_not_strictly_greatest :
  entry_pta <$> (select tie_dict ptas0 backends0 Tmin0 sigmax0 [psr]).1.1 !! psr
    = Some ["PPTA"] /\
  ~ strictly_greatest tie_dict Tmin0 sigmax0 psr "PPTA".
Proof.
  split; [vm_compute; reflexivity|].
  intros (this & f & Hrec & _ & Hf & Hall).
  vm_compute in Hrec. injection Hrec as <-.
  vm_compute in Hf. injection Hf as <-.
  specialize (Hall "EPTA"
    (record (Finite 8) (Finite 15) (Finite 1.5) (Finite 10)) (Finite 10)).
  assert (H : num_lt (Finite 10) (Finite 10) = true).
  { apply Hall; [discriminate|vm_compute; reflexivity..]. }
  vm_compute in H. discriminate.
Qed.

Lemma selected_is_first_greatest_witness :
  (exists e p this f,
     (select tie_dict ptas0 backends0 Tmin0 sigmax0 [psr]).1.1 !! psr = Some e /\
     entry_pta e = [p] /\
     record_of tie_dict psr p = Some this /\
     qualifies Tmin0 sigmax0 this = true /\
     this !! "FoM" = Some f /\
     forall q that f',
       q ∈ ptas0 -> record_of tie_dict psr q = Some that ->
       qualifies Tmin0 sigmax0 that = true -> that !! "FoM" = Some f' ->
       num_gt f' f = false) /\
  (select plain_dict ptas0 backends0 Tmin0 (Finite 1) [psr]).1.1 !! psr = None.
Proof.
  split.
  - pose proof (proj1 (selected_is_first_greatest tie_dict ptas0 backends0
                         Tmin0 sigmax0 [psr] psr)) as H.
    destruct ((select tie_dict ptas0 backends0 Tmin0 sigmax0 [psr]).1.1 !! psr)
      as [e|] eqn:E; [|vm_compute in E; discriminate].
    destruct (H e eq_refl) as (p & l1 & l2 & this & f & H1 & _ & H2 & H3 & H4 & H5 & _).
    exists e, p, this, f. repeat split; assumption.
  - apply (proj2 (selected_is_first_greatest plain_dict ptas0 backends0
                    Tmin0 (Finite 1) [psr] psr)).
    intros q that Hq Hrec. candidates Hq; vm_compute in Hrec;
      try discriminate; injection Hrec as <-; vm_compute; reflexivity.
Defined.

Lemma assignment_positive_witness :
  (exists e,
     (select plain_dict ptas0 backends0 Tmin0 sigmax0 [psr]).1.1 !! psr = Some e /\
     num_gt (best_FoM (best_for plain_dict ptas0 Tmin0 sigmax0 psr)) zero = true /\
     num_gt (best_Tobs (best_for plain_dict ptas0 Tmin0 sigmax0 psr)) Tmin0 = true) /\
  (select zero_tie_dict ptas0 backends0 Tmin0 sigmax0 [psr]).1.1 !! psr = None.
Proof.
  split.
  - pose proof (proj1 (assignment_positive plain_dict ptas0 backends0
                         Tmin0 sigmax0 [psr] psr)) as H.
    destruct ((select plain_dict ptas0 backends0 Tmin0 sigmax0 [psr]).1.1 !! psr)
      as [e|] eqn:E; [|vm_compute in E; discriminate].
    destruct (H e eq_refl) as (_ & H1 & H2).
    exists e. repeat split; assumption.
  - apply (proj2 (proj2 (assignment_positive zero_tie_dict ptas0 backends0
                           Tmin0 sigmax0 [psr] psr))).
    intros q that f Hq Hrec _ Hf. candidates Hq; vm_compute in Hrec;
      try discriminate; injection Hrec as <-; vm_compute in Hf;
      injection Hf as <-; reflexivity.
Defined.

Lemma threshold_is_strict_witness :
  (record_of edge_dict psr "EPTA" =
     Some (record (Finite 5) (Finite 15) (Finite 1.5) (Finite 25)) /\
   num_eq (Finite 5) Tmin0 = true /\
   qualifies Tmin0 sigmax0
     (record (Finite 5) (Finite 15) (Finite 1.5) (Finite 25)) = false /\
   select edge_dict ptas0 backends0 Tmin0 sigmax0 [psr] =
   select (remove_record edge_dict psr "EPTA") ptas0 backends0 Tmin0 sigmax0
     [psr]) /\
  (record_of edge_sigma_dict psr "EPTA" =
     Some (record (Finite 8) (Finite 15) (Finite 10) (Finite 25)) /\
   num_eq (Finite 10) sigmax0 = true /\
   qualifies Tmin0 sigmax0
     (record (Finite 8) (Finite 15) (Finite 10) (Finite 25)) = false).
Proof.
  split.
  - destruct (threshold_is_strict edge_dict ptas0 backends0 Tmin0 sigmax0
                [psr] psr "EPTA"
                (record (Finite 5) (Finite 15) (Finite 1.5) (Finite 25)))
      as (H1 & _ & H2).
    + vm_compute. reflexivity.
    + left. exists (Finite 5). split; vm_compute; reflexivity.
    + repeat split; try assumption; vm_compute; reflexivity.
  - destruct (threshold_is_strict edge_sigma_dict ptas0 backends0 Tmin0
                sigmax0 [psr] psr "EPTA"
                (record (Finite 8) (Finite 15) (Finite 10) (Finite 25)))
      as (H1 & _ & _).
    + vm_compute. reflexivity.
    + right. exists (Finite 10). split; vm_compute; reflexivity.
    + repeat split; try assumption; vm_compute; reflexivity.
Defined.

Lemma absent_record_skipped_witness :
  record_of plain_dict psr "NANOGrav" = None /\
  (forall best, visit plain_dict Tmin0 sigmax0 psr best "NANOGrav" = best) /\
  best_for plain_dict ptas0 Tmin0 sigmax0 psr =
  best_for plain_dict ["PPTA"; "EPTA"] Tmin0 sigmax0 psr /\
  (select plain_dict ptas0 backends0 Tmin0 sigmax0 [psr]).2 = None.
Proof.
  destruct (absent_record_skipped plain_dict ptas0 backends0 Tmin0 sigmax0
              [psr] psr "NANOGrav") as (_ & H1 & H2 & H3).
  - vm_compute. reflexivity.
  - split; [vm_compute; reflexivity|]. split; [exact H1|]. split.
    + apply (H2 ["PPTA"; "EPTA"] []). reflexivity.
    + apply H3. intros p Hp. candidates Hp; eexists; vm_compute; reflexivity.
Defined.

Lemma partial_record_skipped_witness :
  record_of partial_dict psr "EPTA" =
    Some (<["FoM" := Finite 25]> (<["Tobs" := Finite 8]> ∅)) /\
  (forall best, visit partial_dict Tmin0 sigmax0 psr best "EPTA" = best) /\
  select partial_dict ptas0 backends0 Tmin0 sigmax0 [psr] =
  select (remove_record partial_dict psr "EPTA") ptas0 backends0 Tmin0
    sigmax0 [psr].
Proof.
  destruct (partial_record_skipped partial_dict ptas0 backends0 Tmin0 sigmax0
              [psr] psr "EPTA"
              (<["FoM" := Finite 25]> (<["Tobs" := Finite 8]> ∅)))
    as (_ & H1 & H2).
  - vm_compute. reflexivity.
  - right. left. vm_compute. reflexivity.
  - split; [vm_compute; reflexivity|]. split; assumption.
Defined.

Lemma sentinel_is_excluded_witness :
  let none := fun _ : list number => zero in
  let this :=
    Summary.summarize none none (fun _ _ => zero) none (fun _ _ _ => zero)
      [] [] in
  num_gt Tmin0 zero = true /\ num_gt sigmax0 zero = true /\
  record_of sentinel_dict psr "EPTA" = Some this /\
  this !! "Tobs" = Some zero /\ this !! "sigma" = Some PosInf /\
  this !! "dt" = Some PosInf /\ this !! "FoM" = Some zero /\
  qualifies Tmin0 sigmax0 this = false /\
  forall best, visit sentinel_dict Tmin0 sigmax0 psr best "EPTA" = best.
Proof.
  intros none this.
  destruct (sentinel_is_excluded none none (fun _ _ => zero) none
              (fun _ _ _ => zero) [] sentinel_dict ptas0 backends0 Tmin0
              sigmax0 [psr] psr "EPTA")
    as ((H1 & H2 & H3 & H4) & _ & H5 & H6 & _).
  - vm_compute. reflexivity.
  - vm_compute. reflexivity.
  - vm_compute. reflexivity.
  - repeat split; try assumption; vm_compute; reflexivity.
Defined.

(** C4, as first stated, fails when the tied FoM is 0: both records of
    [zero_tie_dict] satisfy the thresholds with the same FoM, and the
    cell stores nothing for the pulsar. *)
Lemma zero_tie_unassigned :
  offer zero_tie_dict Tmin0 sigmax0 psr "PPTA" = Some (Finite 6, Finite 0) /\
  offer zero_tie_dict Tmin0 sigmax0 psr "EPTA" = Some (Finite 8, Finite 0) /\
  num_eq (Finite 0) (Finite 0) = true /\
  select zero_tie_dict ptas0 backends0 Tmin0 sigmax0 [psr] = ((∅, []), None).
Proof. repeat split; vm_compute; reflexivity. Qed.

Lemma first_of_tied_best_assigned_witness :
  offer tie_dict Tmin0 sigmax0 psr "PPTA" = Some (Finite 6, Finite 10) /\
  offer tie_dict Tmin0 sigmax0 psr "EPTA" = Some (Finite 8, Finite 10) /\
  best_for tie_dict ptas0 Tmin0 sigmax0 psr =
    Best (Some "PPTA") (Finite 6) (Finite 10) /\
  exists g,
    backends0 !! "PPTA" = Some g /\
    (select tie_dict ptas0 backends0 Tmin0 sigmax0 [psr]).1.1 !! psr =
    Some (Entry ["PPTA"] g).
Proof.
  destruct (first_of_tied_best_assigned tie_dict ptas0 backends0 Tmin0
              sigmax0 [psr] psr [] "PPTA" ["EPTA"; "NANOGrav"] "EPTA"
              (Finite 6) (Finite 8) (Finite 10) (Finite 10)) as [H1 H2].
  - reflexivity.
  - apply list_elem_of_here.
  - vm_compute. reflexivity.
  - vm_compute. reflexivity.
  - vm_compute. reflexivity.
  - vm_compute. reflexivity.
  - intros q t' f' Hq. apply elem_of_nil in Hq. destruct Hq.
  - intros q t' f' Hq Hoff. candidates Hq; vm_compute in Hoff;
      try discriminate; injection Hoff as <- <-; reflexivity.
  - split; [vm_compute; reflexivity|]. split; [vm_compute; reflexivity|].
    split; [exact H1|]. apply H2; [apply list_elem_of_here|].
    vm_compute. reflexivity.
Defined.

End Instances.

Section ScorerInstances.

Import Scorer.
Local Open Scope R_scope.

(** C2, as first stated, fails at T = 1, dt = 2, sigma = 1: the code
    gives 2^(-3/26) and the stated formula 2^(-3/13). *)
Lemma gwb_FoM_inter_not_spec :
  gwb_FoM_inter 1 2 1 <> spec_gwb_FoM_inter 1 2 1.
Proof.
  unfold gwb_FoM_inter, spec_gwb_FoM_inter.
  replace (1 ^ 2 * 2) with 2 by (simpl; lra).
  rewrite sqrt_1.
  assert (H1 : Rpower 1 (1 / 2) = 1)
    by (unfold Rpower; rewrite ln_1, Rmult_0_r; apply exp_0).
  rewrite H1, !Rmult_1_l. intros H.
  apply Rpower_exponent_inj in H; lra.
Qed.

Lemma gwb_FoM_inter_value_witness :
  0 < 4 /\ 0 < 2 /\ 0 < 3 /\
  gwb_FoM_inter 4 2 3 = sqrt 4 * Rpower (3 ^ 2 * 2) (- 3 / 26).
Proof.
  repeat split; try lra.
  apply (gwb_FoM_inter_value 4 2 3); lra.
Defined.


End ScorerInstances.

Section Binary64Instances.

Import PrimFloat.
Local Open Scope float_scope.


End Binary64Instances.

(** ** More on the selection cell: the run as a whole *)

Section RunFacts.

Variable FoM_dict : gmap string (gmap string (gmap string number)).
Variable ptas : list string.
Variable backends : gmap string (list string).
Variables Tmin sigmax : number.

Let off := offer FoM_dict Tmin sigmax.
Let bestof := best_for FoM_dict ptas Tmin sigmax.
Let loop := select_loop FoM_dict ptas backends Tmin sigmax.
Let run := select FoM_dict ptas backends Tmin sigmax.

Lemma select_loop_app l1 l2 acc :
  loop (l1 ++ l2) acc =
  match loop l1 acc with
  | (acc', None) => loop l2 acc'
  | (acc', Some e) => (acc', Some e)
  end.
Proof.
  revert acc. induction l1 as [|x l1 IH]; intros acc; simpl; [reflexivity|].
  unfold loop. simpl. fold loop.
  destruct (select_one FoM_dict ptas backends Tmin sigmax x acc) as [e|acc'];
    [reflexivity|apply IH].
Qed.

Lemma select_one_raises x acc key :
  select_one FoM_dict ptas backends Tmin sigmax x acc = inl (KeyError key) <->
  best_pta (bestof x) = Some key /\ backends !! key = None.
Proof.
  unfold select_one, getitem. fold bestof.
  destruct (best_pta (bestof x)) as [p|]; simpl.
  - destruct (backends !! p) as [g|] eqn:Hg; simpl.
    + split; [discriminate|]. intros [[= ->] ?]. congruence.
    + split; [intros [= ->]; auto|]. intros [[= ->] _]. reflexivity.
  - split; [discriminate|]. intros [? _]. discriminate.
Qed.

(** Where a run that raises was stopped. *)
Lemma select_loop_stopped l : forall acc out key,
  loop l acc = (out, Some (KeyError key)) ->
  exists l1 x l2,
    l = l1 ++ x :: l2 /\ loop l1 acc = (out, None) /\
    best_pta (bestof x) = Some key /\ backends !! key = None.
Proof.
  induction l as [|x l IH]; intros acc out key; simpl; [discriminate|].
  unfold loop. simpl. fold loop.
  destruct (select_one FoM_dict ptas backends Tmin sigmax x acc)
    as [[k]|acc'] eqn:E.
  - intros [= <- <-]. apply select_one_raises in E as [Hp Hb].
    exists [], x, l. auto.
  - intros H. destruct (IH _ _ _ H) as (l1 & y & l2 & -> & Hl1 & Hp & Hb).
    exists (x :: l1), y, l2. repeat split; auto.
    unfold loop. simpl. rewrite E. exact Hl1.
Qed.

(** A run that completes has found a [backends] entry for every choice. *)
Lemma select_loop_done_backends l : forall acc x p,
  (loop l acc).2 = None -> x ∈ l -> best_pta (bestof x) = Some p ->
  is_Some (backends !! p).
Proof.
  intros acc x p Hdone Hin Hp.
  destruct (select_loop_found FoM_dict ptas backends Tmin sigmax x p l acc
              Hdone Hin Hp) as (g & Hg & _). eauto.
Qed.

(** The rows printed by a run that completes. *)
Lemma select_loop_rows l : forall acc,
  (loop l acc).2 = None ->
  (loop l acc).1.2 =
  acc.2 ++ ((fun x => (x, bestof x)) <$>
            filter (fun x => is_Some (best_pta (bestof x))) l).
Proof.
  induction l as [|x l IH]; intros acc; simpl.
  - intros _. rewrite app_nil_r. reflexivity.
  - unfold loop. simpl. fold loop. unfold select_one. fold bestof.
    rewrite filter_cons.
    destruct (best_pta (bestof x)) as [p|] eqn:Hp; simpl.
    + unfold getitem. destruct (backends !! p) as [g|]; simpl; [|discriminate].
      intros Hdone. rewrite (IH _ Hdone). simpl.
      rewrite <- app_assoc. reflexivity.
    + intros Hdone. rewrite (IH _ Hdone). reflexivity.
Qed.

(** Entries and rows grow together when no name is visited twice. *)
Lemma select_loop_sizes l : forall acc,
  NoDup l -> (forall x, x ∈ l -> acc.1 !! x = None) ->
  size (loop l acc).1.1 + length acc.2 =
  size acc.1 + length (loop l acc).1.2.
Proof.
  induction l as [|x l IH]; intros acc Hnd Hfresh; simpl; [reflexivity|].
  apply NoDup_cons in Hnd as [Hx Hnd].
  unfold loop. simpl. fold loop. unfold select_one. fold bestof.
  destruct (best_pta (bestof x)) as [p|]; simpl.
  - unfold getitem. destruct (backends !! p) as [g|]; simpl; [|reflexivity].
    assert (Hstep : forall y, y ∈ l ->
              (<[x:=Entry [p] g]> acc.1, acc.2 ++ [(x, bestof x)]).1 !! y = None).
    { intros y Hy. simpl. rewrite lookup_insert_ne; [|intros ->; contradiction].
      apply Hfresh. apply elem_of_cons. auto. }
    pose proof (IH _ Hnd Hstep) as H. simpl in H.
    rewrite map_size_insert_None in H
      by (apply Hfresh; apply elem_of_cons; auto).
    rewrite length_app in H. simpl in H. lia.
  - apply IH; [exact Hnd|]. intros y Hy. apply Hfresh. apply elem_of_cons. auto.
Qed.

End RunFacts.

Section NumberOrderMore.

Lemma num_le_antisym x y :
  num_le x y = true -> num_le y x = true -> num_eq x y = true.
Proof.
  destruct x, y; simpl; try congruence.
  rewrite !Qle_bool_iff. intros H1 H2. apply Qeq_bool_iff.
  apply Qle_antisym; assumption.
Qed.

Lemma num_le_not_nan_l x y : num_le x y = true -> is_nan x = false.
Proof. destruct x, y; simpl; congruence. Qed.

Lemma num_le_not_nan_r x y : num_le x y = true -> is_nan y = false.
Proof. destruct x, y; simpl; congruence. Qed.

End NumberOrderMore.

Section RunExtras.

Variable FoM_dict : gmap string (gmap string (gmap string number)).
Variable ptas : list string.
Variable backends : gmap string (list string).
Variables Tmin sigmax : number.
Variable psrlist : list string.

Let bestof := best_for FoM_dict ptas Tmin sigmax.
Let run := select FoM_dict ptas backends Tmin sigmax.

Lemma offer_record psrname pta t f :
  offer FoM_dict Tmin sigmax psrname pta = Some (t, f) ->
  is_Some (FoM_dict !! psrname).
Proof.
  intros H. apply offer_Some in H as (this & Hrec & _).
  unfold record_of in Hrec. destruct (FoM_dict !! psrname); [eauto|discriminate].
Qed.

Lemma positive_offer_assigned psrname q t f :
  (run psrlist).2 = None -> psrname ∈ psrlist -> q ∈ ptas ->
  offer FoM_dict Tmin sigmax psrname q = Some (t, f) ->
  num_gt f zero = true ->
  is_Some ((run psrlist).1.1 !! psrname).
Proof.
  intros Hdone Hin Hq Hoff Hpos.
  destruct (best_for_some _ _ _ _ _ _ _ _ Hq Hoff Hpos) as [p Hp].
  destruct (select_loop_found FoM_dict ptas backends Tmin sigmax psrname p
              psrlist (∅, []) Hdone Hin Hp) as (g & _ & Hg).
  eexists. exact Hg.
Qed.

(** X1: a pulsar that is not in [psrlist], or that has no entry in
    [FoM_dict], never gets an entry in [psrdict]. *)
Theorem unlisted_or_unknown_unassigned psrname :
  psrname ∉ psrlist \/ FoM_dict !! psrname = None ->
  (run psrlist).1.1 !! psrname = None.
Proof.
  intros Hout.
  destruct ((run psrlist).1.1 !! psrname) as [e|] eqn:He; [|reflexivity].
  destruct (psrdict_entry _ _ _ _ _ _ _ _ He) as (Hin & p & g & Hp & _).
  destruct Hout as [Hout|Hout]; [contradiction|].
  destruct (best_for_chosen _ _ _ _ _ _ Hp) as (_ & _ & t & f & _ & Hoff & _).
  apply offer_record in Hoff as [d Hd]. congruence.
Qed.

(** X2: every entry of [psrdict] has the shape
    [{'pta': [p], 'group': backends[p]}] for a PTA [p] of the list [ptas]. *)
Theorem entry_is_candidate_with_backends psrname e :
  (run psrlist).1.1 !! psrname = Some e ->
  exists p g, p ∈ ptas /\ backends !! p = Some g /\ e = Entry [p] g.
Proof.
  intros He.
  destruct (psrdict_entry _ _ _ _ _ _ _ _ He) as (_ & p & g & Hp & Hg & ->).
  exists p, g. split; [|auto].
  exact (best_for_chosen_in FoM_dict ptas backends Tmin sigmax psrname p Hp).
Qed.

(** X3: in a run that ends without an exception, a listed pulsar gets an
    entry exactly when some candidate PTA has a record for it that
    satisfies both thresholds with an FoM greater than 0. *)
Theorem assigned_iff_positive_offer psrname :
  (run psrlist).2 = None -> psrname ∈ psrlist ->
  (is_Some ((run psrlist).1.1 !! psrname) <->
   exists q t f, q ∈ ptas /\
     offer FoM_dict Tmin sigmax psrname q = Some (t, f) /\
     num_gt f zero = true).
Proof.
  intros Hdone Hin. split.
  - intros [e He].
    destruct (psrdict_entry _ _ _ _ _ _ _ _ He) as (_ & p & g & Hp & _).
    destruct (best_for_chosen _ _ _ _ _ _ Hp)
      as (l1 & l2 & t & f & Hl & Hoff & _ & Hpos & _).
    exists p, t, f. split; [|auto].
    exact (best_for_chosen_in FoM_dict ptas backends Tmin sigmax psrname p Hp).
  - intros (q & t & f & Hq & Hoff & Hpos).
    eapply positive_offer_assigned; eassumption.
Qed.

(** X4: the run is stopped by the first listed pulsar whose chosen PTA
    has no [backends] entry: the [KeyError] carries that PTA, what was
    stored and printed for the pulsars before it is kept, and the pulsars
    after it are not visited.  A run raises only in this way. *)
Theorem run_stops_at_missing_backends key :
  (forall l1 x l2,
     psrlist = l1 ++ x :: l2 -> (run l1).2 = None ->
     best_pta (bestof x) = Some key -> backends !! key = None ->
     run psrlist = ((run l1).1, Some (KeyError key))) /\
  ((run psrlist).2 = Some (KeyError key) ->
   exists l1 x l2,
     psrlist = l1 ++ x :: l2 /\ (run l1).2 = None /\
     best_pta (bestof x) = Some key /\ backends !! key = None /\
     (run psrlist).1 = (run l1).1).
Proof.
  split.
  - intros l1 x l2 -> Hdone Hp Hb. unfold run, select in *.
    rewrite select_loop_app.
    destruct (select_loop FoM_dict ptas backends Tmin sigmax l1 (∅, []))
      as [acc' e]. simpl in Hdone. subst e. simpl.
    assert (E : select_one FoM_dict ptas backends Tmin sigmax x acc' =
                inl (KeyError key)) by (apply select_one_raises; auto).
    rewrite E. reflexivity.
  - intros Hr. unfold run, select in *.
    destruct (select_loop FoM_dict ptas backends Tmin sigmax psrlist (∅, []))
      as [out e] eqn:E. simpl in Hr. subst e.
    destruct (select_loop_stopped _ _ _ _ _ _ _ _ _ E)
      as (l1 & x & l2 & Hl & Hl1 & Hp & Hb).
    exists l1, x, l2. rewrite Hl1. auto.
Qed.

(** X5: [psrdict] depends on [psrlist] only through the set of its names:
    a list with the same names, in any order and with any repetitions,
    also runs to the end and gives the same [psrdict]. *)
Theorem psrdict_ignores_order psrlist' :
  (forall x, x ∈ psrlist <-> x ∈ psrlist') ->
  (run psrlist).2 = None ->
  (run psrlist').2 = None /\ (run psrlist').1.1 = (run psrlist).1.1.
Proof.
  intros Hsame Hdone.
  assert (Hdone' : (run psrlist').2 = None).
  { destruct ((run psrlist').2) as [[key]|] eqn:E; [|reflexivity].
    unfold run, select in E.
    destruct (select_loop FoM_dict ptas backends Tmin sigmax psrlist' (∅, []))
      as [out e] eqn:E'. simpl in E. subst e.
    destruct (select_loop_stopped _ _ _ _ _ _ _ _ _ E')
      as (l1 & x & l2 & Hl & _ & Hp & Hb).
    assert (Hx : x ∈ psrlist).
    { apply Hsame. rewrite Hl. apply elem_of_app. right.
      apply elem_of_cons. auto. }
    destruct (select_loop_done_backends FoM_dict ptas backends Tmin sigmax
                psrlist (∅, []) x key Hdone Hx Hp) as [g Hg]. congruence. }
  split; [exact Hdone'|].
  assert (Hsub : forall l l', (forall x, x ∈ l -> x ∈ l') ->
            (run l').2 = None ->
            forall i e, (run l).1.1 !! i = Some e -> (run l').1.1 !! i = Some e).
  { intros l l' Hll Hd i e He.
    destruct (psrdict_entry _ _ _ _ _ _ _ _ He) as (Hin & p & g & Hp & Hg & ->).
    destruct (select_loop_found FoM_dict ptas backends Tmin sigmax i p l'
                (∅, []) Hd (Hll _ Hin) Hp) as (g' & Hg' & Hi).
    unfold run, select. rewrite Hi. congruence. }
  apply map_eq. intros i.
  destruct ((run psrlist).1.1 !! i) as [e|] eqn:He.
  - apply (Hsub psrlist psrlist'); auto. intros x. apply Hsame.
  - destruct ((run psrlist').1.1 !! i) as [e'|] eqn:He'; [|reflexivity].
    rewrite (Hsub psrlist' psrlist (fun x => proj2 (Hsame x)) Hdone i e' He')
      in He. discriminate.
Qed.

(** X6: a run that ends without an exception prints one row for each
    listed pulsar that has a choice, in the order of [psrlist], holding the
    pulsar's [best]. *)
Theorem printed_rows_in_order :
  (run psrlist).2 = None ->
  (run psrlist).1.2 =
  (fun x => (x, bestof x)) <$>
  filter (fun x => is_Some (best_pta (bestof x))) psrlist.
Proof.
  intros Hdone.
  apply (select_loop_rows FoM_dict ptas backends Tmin sigmax psrlist (∅, [])).
  exact Hdone.
Qed.

(** X7: when no name occurs twice in [psrlist], the cell prints as many
    rows as it stores entries, whether or not the run is stopped by an
    exception. *)
Theorem rows_match_entries :
  NoDup psrlist ->
  length (run psrlist).1.2 = size (run psrlist).1.1.
Proof.
  intros Hnd.
  pose proof (select_loop_sizes FoM_dict ptas backends Tmin sigmax psrlist
                (∅, []) Hnd) as H.
  simpl in H. rewrite map_size_empty in H. unfold run, select.
  specialize (H (fun x _ => lookup_empty x)). lia.
Qed.

End RunExtras.

(** ** More on the selection cell: changing the configuration *)

Section ConfigExtras.

Variable FoM_dict : gmap string (gmap string (gmap string number)).
Variable backends : gmap string (list string).

Lemma offer_looser Tmin sigmax Tmin' sigmax' psrname pta t f :
  num_le Tmin' Tmin = true -> num_le sigmax sigmax' = true ->
  offer FoM_dict Tmin sigmax psrname pta = Some (t, f) ->
  offer FoM_dict Tmin' sigmax' psrname pta = Some (t, f).
Proof.
  intros HT Hs Hoff. apply offer_Some in Hoff as (this & Hrec & Hq & Ht & Hf).
  apply offer_Some. exists this. repeat split; auto.
  apply qualifies_true in Hq as (t0 & s0 & Ht0 & Hs0 & Hgt & Hlt).
  apply qualifies_true. exists t0, s0. repeat split; auto.
  - unfold num_gt in *. eapply num_le_lt_trans; eassumption.
  - eapply num_lt_le_trans; eassumption.
Qed.

Lemma best_FoM_not_nan ptas Tmin sigmax psrname :
  is_nan (best_FoM (best_for FoM_dict ptas Tmin sigmax psrname)) = false.
Proof.
  destruct (fold_visit_inv FoM_dict Tmin sigmax psrname ptas best_init
              eq_refl) as (H & _). exact H.
Qed.

Lemma best_FoM_nonneg ptas Tmin sigmax psrname :
  num_le zero (best_FoM (best_for FoM_dict ptas Tmin sigmax psrname)) = true.
Proof.
  destruct (fold_visit_inv FoM_dict Tmin sigmax psrname ptas best_init
              eq_refl) as (_ & H & _). exact H.
Qed.

(** The FoM of [best] dominates every offer made by a candidate. *)
Lemma best_FoM_dominates ptas Tmin sigmax psrname q t f :
  q ∈ ptas -> offer FoM_dict Tmin sigmax psrname q = Some (t, f) ->
  is_nan f = false ->
  num_le f (best_FoM (best_for FoM_dict ptas Tmin sigmax psrname)) = true.
Proof.
  intros Hq Hoff Hn.
  destruct (best_for_spec FoM_dict ptas Tmin sigmax psrname) as [Hall _].
  apply num_not_lt_le; [apply best_FoM_not_nan|exact Hn|].
  exact (Hall q t f Hq Hoff).
Qed.

(** The FoM of [best] is 0 or the FoM offered by some candidate. *)
Lemma best_FoM_attained ptas Tmin sigmax psrname :
  best_for FoM_dict ptas Tmin sigmax psrname = best_init \/
  exists p t f,
    p ∈ ptas /\ offer FoM_dict Tmin sigmax psrname p = Some (t, f) /\
    best_for FoM_dict ptas Tmin sigmax psrname = Best (Some p) t f /\
    num_gt f zero = true.
Proof.
  destruct (best_for_spec FoM_dict ptas Tmin sigmax psrname) as [_ [H|H]];
    [left; exact H|right].
  destruct H as (l1 & p & l2 & t & f & -> & Hoff & Hr & Hpos & _).
  exists p, t, f. repeat split; auto.
  apply elem_of_app. right. apply elem_of_cons. auto.
Qed.

(** X8: loosening the thresholds (a smaller [Tmin], a larger [sigmax])
    never lowers the FoM of a pulsar's [best], and a pulsar that had an
    entry keeps one when the run with the looser thresholds ends without
    an exception. *)
Theorem looser_thresholds_keep_assignments
    ptas Tmin sigmax Tmin' sigmax' psrlist psrname :
  num_le Tmin' Tmin = true -> num_le sigmax sigmax' = true ->
  num_le (best_FoM (best_for FoM_dict ptas Tmin sigmax psrname))
         (best_FoM (best_for FoM_dict ptas Tmin' sigmax' psrname)) = true /\
  ((select FoM_dict ptas backends Tmin' sigmax' psrlist).2 = None ->
   is_Some ((select FoM_dict ptas backends Tmin sigmax psrlist).1.1
              !! psrname) ->
   is_Some ((select FoM_dict ptas backends Tmin' sigmax' psrlist).1.1
              !! psrname)).
Proof.
  intros HT Hs. split.
  - destruct (best_FoM_attained ptas Tmin sigmax psrname)
      as [->|(p & t & f & Hp & Hoff & -> & Hpos)]; simpl.
    + apply best_FoM_nonneg.
    + eapply best_FoM_dominates; [exact Hp| |].
      * eapply offer_looser; eassumption.
      * eapply num_lt_not_nan_r. exact Hpos.
  - intros Hdone [e He].
    destruct (psrdict_entry _ _ _ _ _ _ _ _ He) as (Hin & p & g & Hp & _).
    destruct (best_for_chosen _ _ _ _ _ _ Hp)
      as (l1 & l2 & t & f & Hl & Hoff & _ & Hpos & _).
    apply (positive_offer_assigned FoM_dict ptas backends Tmin' sigmax'
             psrlist psrname p t f Hdone Hin); [| |exact Hpos].
    + rewrite Hl. apply elem_of_app. right. apply elem_of_cons. auto.
    + eapply offer_looser; eassumption.
Qed.

End ConfigExtras.

Section CandidateExtras.

Variable FoM_dict : gmap string (gmap string (gmap string number)).
Variable backends : gmap string (list string).
Variables Tmin sigmax : number.
Variable psrname : string.

Let bestof := fun ptas => best_for FoM_dict ptas Tmin sigmax psrname.

Lemma chosen_iff_positive ptas :
  is_Some (best_pta (bestof ptas)) <->
  num_gt (best_FoM (bestof ptas)) zero = true.
Proof.
  unfold bestof.
  destruct (best_FoM_attained FoM_dict ptas Tmin sigmax psrname)
    as [->|(p & t & f & _ & _ & -> & Hpos)]; simpl.
  - split; [intros [? ?]; discriminate|discriminate].
  - split; eauto.
Qed.

Lemma best_FoM_more_candidates ptas ptas' :
  (forall q, q ∈ ptas -> q ∈ ptas') ->
  num_le (best_FoM (bestof ptas)) (best_FoM (bestof ptas')) = true.
Proof.
  intros Hsub. unfold bestof.
  destruct (best_FoM_attained FoM_dict ptas Tmin sigmax psrname)
    as [->|(p & t & f & Hp & Hoff & -> & Hpos)]; simpl.
  - apply best_FoM_nonneg.
  - eapply best_FoM_dominates; [apply Hsub; exact Hp|exact Hoff|].
    eapply num_lt_not_nan_r. exact Hpos.
Qed.

(** X9: the FoM of a pulsar's [best], and whether the pulsar gets a PTA
    at all, do not depend on the order of the candidate list [ptas] nor
    on repetitions in it; only the PTA named can change, between
    candidates with equal FoM. *)
Theorem best_FoM_ignores_candidate_order ptas ptas' :
  (forall q, q ∈ ptas <-> q ∈ ptas') ->
  num_eq (best_FoM (best_for FoM_dict ptas Tmin sigmax psrname))
         (best_FoM (best_for FoM_dict ptas' Tmin sigmax psrname)) = true /\
  (is_Some (best_pta (best_for FoM_dict ptas Tmin sigmax psrname)) <->
   is_Some (best_pta (best_for FoM_dict ptas' Tmin sigmax psrname))).
Proof.
  intros Hsame.
  assert (H1 := best_FoM_more_candidates ptas ptas'
                  (fun q => proj1 (Hsame q))).
  assert (H2 := best_FoM_more_candidates ptas' ptas
                  (fun q => proj2 (Hsame q))).
  split; [apply num_le_antisym; assumption|].
  change (is_Some (best_pta (bestof ptas)) <->
          is_Some (best_pta (bestof ptas'))).
  rewrite !chosen_iff_positive. unfold num_gt.
  split; intros H; eapply num_lt_le_trans; eassumption.
Qed.

(** X10: adding candidate PTAs to [ptas], at any place, never lowers the
    FoM of a pulsar's [best] and never takes its PTA away. *)
Theorem more_candidates_never_hurt ptas ptas' :
  (forall q, q ∈ ptas -> q ∈ ptas') ->
  num_le (best_FoM (best_for FoM_dict ptas Tmin sigmax psrname))
         (best_FoM (best_for FoM_dict ptas' Tmin sigmax psrname)) = true /\
  (is_Some (best_pta (best_for FoM_dict ptas Tmin sigmax psrname)) ->
   is_Some (best_pta (best_for FoM_dict ptas' Tmin sigmax psrname))).
Proof.
  intros Hsub.
  assert (H := best_FoM_more_candidates ptas ptas' Hsub).
  split; [exact H|].
  change (is_Some (best_pta (bestof ptas)) ->
          is_Some (best_pta (bestof ptas'))).
  rewrite !chosen_iff_positive. unfold num_gt.
  intros Hpos. eapply num_lt_le_trans; eassumption.
Qed.

(** X11: of two candidates whose records satisfy the thresholds with
    equal FoM, the one listed later is never the PTA stored for the
    pulsar, whatever the other candidates offer. *)
Theorem later_tied_candidate_never_stored
    ptas psrlist l1 a l2 b ta fa tb fb e :
  ptas = l1 ++ a :: l2 -> b ∉ l1 -> a <> b ->
  offer FoM_dict Tmin sigmax psrname a = Some (ta, fa) ->
  offer FoM_dict Tmin sigmax psrname b = Some (tb, fb) ->
  num_eq fa fb = true ->
  (select FoM_dict ptas backends Tmin sigmax psrlist).1.1 !! psrname
    = Some e ->
  entry_pta e <> [b].
Proof.
  intros Hl Hb Hab Hoffa Hoffb Heq He Hpta.
  destruct (psrdict_entry _ _ _ _ _ _ _ _ He) as (_ & p & g & Hp & _ & ->).
  simpl in Hpta. injection Hpta as ->.
  exact (later_tie_loses FoM_dict ptas Tmin sigmax psrname l1 a l2 b
           ta fa tb fb Hl Hb Hab Hoffa Hoffb Heq Hp).
Qed.

End CandidateExtras.

(** ** The construction loop *)

Section ConstructionExtras.

Variable psr_t : Type.
Variable flagvals : psr_t -> list string.
Variable filter_psr : psr_t -> string -> list string -> psr_t.
Variable surviving_toas : psr_t -> list number.
Variable surviving_toaerrs : psr_t -> list number.
Variable toas_span : list number -> number.
Variable quantization_columns : list number -> number.
Variable float_div : number -> number -> number.
Variable harmonic_mean : list number -> number.
Variable my_FoM : number -> number -> number -> number.
Variable backends : gmap string (list string).

Let summarize :=
  Summary.summarize toas_span quantization_columns float_div harmonic_mean
    my_FoM.
Let step :=
  Construction.build_step psr_t flagvals filter_psr surviving_toas
    surviving_toaerrs toas_span quantization_columns float_div harmonic_mean
    my_FoM backends.
Let loop :=
  Construction.build_loop psr_t flagvals filter_psr surviving_toas
    surviving_toaerrs toas_span quantization_columns float_div harmonic_mean
    my_FoM backends.
Let build :=
  Construction.build_psr psr_t flagvals filter_psr surviving_toas
    surviving_toaerrs toas_span quantization_columns float_div harmonic_mean
    my_FoM backends.

Lemma summarize_four_fields toas toaerrs : four_fields (summarize toas toaerrs).
Proof.
  unfold summarize, Summary.summarize.
  destruct (Summary.summary_values _ _ _ _ _ toas toaerrs) as [[[T s] c] F].
  repeat split; eexists; reflexivity.
Qed.

Lemma build_loop_records ptas : forall st pta this,
  (loop ptas st).1.2 !! pta = Some this ->
  st.2 !! pta = Some this \/
  (pta ∈ ptas /\
   ((is_Some (backends !! pta) /\ four_fields this) \/
    (this = ∅ /\ backends !! pta = None /\
     (loop ptas st).2 = Some (KeyError pta)))).
Proof.
  induction ptas as [|a ptas IH]; intros st pta this; [simpl; auto|].
  unfold loop. cbn [Construction.build_loop]. fold loop. fold step.
  unfold step, Construction.build_step, getitem.
  destruct (bool_decide (a ∈ flagvals st.1)).
  - destruct (backends !! a) as [g|] eqn:Hg; simpl.
    + intros H. destruct (IH _ _ _ H) as [Hin|[Hin Hcase]].
      * simpl in Hin. destruct (decide (a = pta)) as [->|Hne].
        -- rewrite lookup_insert_eq in Hin. injection Hin as <-.
           right. split; [apply elem_of_cons; auto|]. left.
           split; [eauto|apply summarize_four_fields].
        -- rewrite !lookup_insert_ne in Hin by exact Hne. auto.
      * right. split; [apply elem_of_cons; auto|exact Hcase].
    + intros Hin. destruct (decide (a = pta)) as [->|Hne].
      * rewrite lookup_insert_eq in Hin. injection Hin as <-.
        right. split; [apply elem_of_cons; auto|]. right. auto.
      * rewrite lookup_insert_ne in Hin by exact Hne. auto.
  - intros H. destruct (IH _ _ _ H) as [Hin|[Hin Hcase]]; [auto|].
    right. split; [apply elem_of_cons; auto|exact Hcase].
Qed.

(** Where a stopped loop left its empty record. *)
Lemma build_loop_raised ptas : forall st key,
  (loop ptas st).2 = Some (KeyError key) ->
  (loop ptas st).1.2 !! key = Some ∅ /\ backends !! key = None.
Proof.
  induction ptas as [|a ptas IH]; intros st key; [simpl; discriminate|].
  unfold loop. cbn [Construction.build_loop]. fold loop. fold step.
  unfold step, Construction.build_step, getitem.
  destruct (bool_decide (a ∈ flagvals st.1)); [|apply IH].
  destruct (backends !! a) as [g|] eqn:Hg; simpl; [apply IH|].
  intros [= <-]. split; [apply lookup_insert_eq|exact Hg].
Qed.

Lemma build_records psr ptas pta this :
  (build psr ptas).1 !! pta = Some this ->
  pta ∈ ptas /\
  ((is_Some (backends !! pta) /\ four_fields this) \/
   (this = ∅ /\ backends !! pta = None /\
    (build psr ptas).2 = Some (KeyError pta))).
Proof.
  unfold build, Construction.build_psr. fold loop. simpl. intros H.
  destruct (build_loop_records ptas _ _ _ H) as [Hin|Hcase]; [|exact Hcase].
  simpl in Hin. rewrite lookup_empty in Hin. discriminate.
Qed.

Lemma empty_not_four_fields : ~ four_fields ∅.
Proof. intros ([t Ht] & _). rewrite lookup_empty in Ht. discriminate. Qed.

(** X12: every record the construction loop stores for a pulsar belongs
    to a PTA of the list [ptas].  It holds the four fields ['Tobs'],
    ['dt'], ['sigma'] and ['FoM'] and its PTA has a [backends] entry,
    unless it is the empty record left for the PTA whose [backends]
    lookup raised [KeyError] and stopped the loop; so a loop that ends
    without an exception leaves complete records only. *)
Theorem built_records_complete psr ptas pta this :
  (build psr ptas).1 !! pta = Some this ->
  pta ∈ ptas /\
  ((is_Some (backends !! pta) /\ four_fields this) \/
   (this = ∅ /\ backends !! pta = None /\
    (build psr ptas).2 = Some (KeyError pta))) /\
  ((build psr ptas).2 = None ->
   is_Some (backends !! pta) /\ four_fields this).
Proof.
  intros H. destruct (build_records psr ptas pta this H) as [Hin Hcase].
  split; [exact Hin|]. split; [exact Hcase|].
  intros Hdone. destruct Hcase as [Hc|(_ & _ & Hr)]; [exact Hc|congruence].
Qed.

(** X13: on a record stored by the construction loop the [try] block of
    the selection cell never raises, with one exception: on the empty
    record left when [backends[pta]] stopped the construction,
    [this['Tobs']] raises [KeyError], the handler catches it and [best]
    stays as it was. *)
Theorem built_record_never_raises
    psr ptas FoM_dict Tmin sigmax psrname pta this best :
  FoM_dict !! psrname = Some (build psr ptas).1 ->
  (build psr ptas).1 !! pta = Some this ->
  ((build psr ptas).2 <> Some (KeyError pta) ->
   exists best',
     try_body FoM_dict Tmin sigmax psrname pta best = inr best') /\
  ((build psr ptas).2 = Some (KeyError pta) ->
   try_body FoM_dict Tmin sigmax psrname pta best = inl (KeyError "Tobs") /\
   visit FoM_dict Tmin sigmax psrname best pta = best).
Proof.
  intros Hpsr Hthis.
  destruct (build_records psr ptas pta this Hthis) as [_ Hcase].
  split.
  - intros Hno.
    destruct Hcase as [(_ & [t Ht] & _ & [s Hs] & [f Hf])|(_ & _ & Hr)];
      [|contradiction].
    clear Hno. revert Hpsr Hthis. generalize (build psr ptas).1.
    intros of_psr Hpsr Hthis.
    unfold try_body, getitem, and_then. rewrite Hpsr. simpl.
    rewrite Hthis. simpl. rewrite Ht. simpl.
    destruct (num_gt t Tmin); simpl; [|eauto].
    rewrite Hs. simpl. destruct (num_lt s sigmax); simpl; [|eauto].
    rewrite Hf. simpl. destruct (num_gt f (best_FoM best)); simpl; eauto.
  - intros Hr.
    assert (Hempty : this = ∅).
    { revert Hr Hthis. unfold build, Construction.build_psr. fold loop.
      simpl. intros Hr Hthis.
      destruct (build_loop_raised ptas _ _ Hr) as [He _]. congruence. }
    subst this.
    assert (Hbody : try_body FoM_dict Tmin sigmax psrname pta best =
                    inl (KeyError "Tobs")).
    { clear Hr Hcase. revert Hpsr Hthis. generalize (build psr ptas).1.
      intros of_psr Hpsr Hthis.
      unfold try_body, getitem, and_then. rewrite Hpsr. simpl.
      rewrite Hthis. simpl. rewrite lookup_empty. reflexivity. }
    split; [exact Hbody|]. unfold visit. rewrite Hbody. reflexivity.
Qed.

(** X14: when every pulsar's records in [FoM_dict] were stored by the
    construction loop with the same [backends], whether or not that loop
    was stopped by a [KeyError], the selection cell runs to the end: a
    PTA it chooses has a complete record, hence a [backends] entry, and
    the lookup [backends[best['pta']]] cannot fail. *)
Theorem selection_on_built_dict_completes
    FoM_dict ptas Tmin sigmax psrlist :
  (forall psrname of_psr,
     FoM_dict !! psrname = Some of_psr ->
     exists psr ptas', (build psr ptas').1 = of_psr) ->
  (select FoM_dict ptas backends Tmin sigmax psrlist).2 = None.
Proof.
  intros Hbuilt. unfold select.
  destruct (select_loop FoM_dict ptas backends Tmin sigmax psrlist (∅, []))
    as [out [[key]|]] eqn:E; [|reflexivity]. exfalso.
  destruct (select_loop_stopped _ _ _ _ _ _ _ _ _ E)
    as (l1 & x & l2 & _ & _ & Hp & Hb).
  destruct (best_for_chosen _ _ _ _ _ _ Hp)
    as (_ & _ & t & f & _ & Hoff & _).
  apply offer_Some in Hoff as (this & Hrec & _ & Ht & _).
  unfold record_of in Hrec.
  destruct (FoM_dict !! x) as [of_psr|] eqn:Hx; [|discriminate].
  destruct (Hbuilt x of_psr Hx) as (psr & ptas' & <-).
  destruct (build_records psr ptas' key this Hrec)
    as [_ [([g Hg] & _)|(-> & _)]].
  - congruence.
  - rewrite lookup_empty in Ht. discriminate.
Qed.

End ConstructionExtras.

(** ** The count per PTA *)

Section TallyExtras.

Import Tally.

Lemma tally_step_named acc v p :
  entry_pta v = [p] -> p ∈ ["EPTA"; "NANOGrav"; "PPTA"] ->
  counts_sum (tally_step acc v) = counts_sum acc + 1.
Proof.
  intros Hv Hp. destruct acc as [[E N] P]. unfold tally_step. rewrite Hv.
  repeat (apply elem_of_cons in Hp as [->|Hp]);
    [..|apply elem_of_nil in Hp; destruct Hp];
    repeat case_bool_decide; unfold counts_sum; simpl; try lia;
    exfalso; set_solver.
Qed.

Lemma tally_step_singleton E N P v p :
  entry_pta v = [p] ->
  tally_step (E, N, P) v =
  (E + (if decide (entry_pta v = ["EPTA"]) then 1 else 0),
   N + (if decide (entry_pta v = ["NANOGrav"]) then 1 else 0),
   P + (if decide (entry_pta v = ["PPTA"]) then 1 else 0)).
Proof.
  intros Hv. unfold tally_step. rewrite Hv.
  assert (Hmem : forall q : string, q ∈ [p] <-> [p] = [q]).
  { intros q. rewrite list_elem_of_singleton. split; congruence. }
  destruct (decide ([p] = ["EPTA"])) as [He|He].
  { rewrite bool_decide_eq_true_2 by (apply Hmem; exact He).
    injection He as ->. rewrite !decide_False by discriminate.
    simpl; rewrite ?Nat.add_0_r; reflexivity. }
  rewrite bool_decide_eq_false_2 by (rewrite Hmem; exact He).
  destruct (decide ([p] = ["NANOGrav"])) as [Hn|Hn].
  { rewrite bool_decide_eq_true_2 by (apply Hmem; exact Hn).
    injection Hn as ->. rewrite !decide_False by discriminate.
    simpl; rewrite ?Nat.add_0_r; reflexivity. }
  rewrite bool_decide_eq_false_2 by (rewrite Hmem; exact Hn).
  destruct (decide ([p] = ["PPTA"])) as [Hp|Hp].
  { rewrite bool_decide_eq_true_2 by (apply Hmem; exact Hp).
    simpl; rewrite ?Nat.add_0_r; reflexivity. }
  rewrite bool_decide_eq_false_2 by (rewrite Hmem; exact Hp).
  simpl; rewrite ?Nat.add_0_r; reflexivity.
Qed.

Lemma tally_fold_singletons vals : forall E N P,
  (forall v, v ∈ vals -> exists p, entry_pta v = [p]) ->
  fold_left tally_step vals (E, N, P) =
  (E + length (filter (fun v => entry_pta v = ["EPTA"]) vals),
   N + length (filter (fun v => entry_pta v = ["NANOGrav"]) vals),
   P + length (filter (fun v => entry_pta v = ["PPTA"]) vals)).
Proof.
  induction vals as [|v vals IH]; intros E N P Hall.
  - simpl. rewrite !Nat.add_0_r. reflexivity.
  - destruct (Hall v) as [p Hp]; [apply elem_of_cons; auto|].
    change (fold_left tally_step (v :: vals) (E, N, P))
      with (fold_left tally_step vals (tally_step (E, N, P) v)).
    rewrite (tally_step_singleton E N P v p Hp).
    rewrite IH by (intros w Hw; apply Hall; apply elem_of_cons; auto).
    rewrite !filter_cons.
    repeat case_decide; simpl; rewrite ?Nat.add_0_r, <- ?Nat.add_assoc;
      reflexivity.
Qed.

Lemma tally_fold_sum vals : forall acc,
  (forall v, v ∈ vals ->
     exists p, entry_pta v = [p] /\ p ∈ ["EPTA"; "NANOGrav"; "PPTA"]) ->
  counts_sum (fold_left tally_step vals acc) = counts_sum acc + length vals.
Proof.
  induction vals as [|v vals IH]; intros acc Hall; [simpl; lia|].
  destruct (Hall v) as (p & Hp & Hin); [apply elem_of_cons; auto|].
  change (fold_left tally_step (v :: vals) acc)
    with (fold_left tally_step vals (tally_step acc v)).
  rewrite IH by (intros w Hw; apply Hall; apply elem_of_cons; auto).
  rewrite (tally_step_named acc v p Hp Hin). simpl. lia.
Qed.

Lemma psrdict_values_singleton
    FoM_dict ptas backends Tmin sigmax psrlist v :
  v ∈ (map_to_list
         (select FoM_dict ptas backends Tmin sigmax psrlist).1.1).*2 ->
  exists p, entry_pta v = [p] /\ p ∈ ptas.
Proof.
  intros Hv. apply list_elem_of_fmap in Hv as ([k e] & -> & Hke).
  apply elem_of_map_to_list in Hke. simpl.
  destruct (psrdict_entry _ _ _ _ _ _ _ _ Hke) as (_ & p & g & Hp & _ & ->).
  exists p. split; [reflexivity|].
  exact (best_for_chosen_in FoM_dict ptas backends Tmin sigmax k p Hp).
Qed.

(** X15: on the [psrdict] built by the selection cell, [E], [N] and [P]
    are the numbers of pulsars stored with EPTA, NANOGrav and PPTA: each
    entry is counted for the one PTA it names, in whatever order the
    values are visited. *)
Theorem tally_counts_each_pta FoM_dict ptas backends Tmin sigmax psrlist :
  let vals :=
    (map_to_list (select FoM_dict ptas backends Tmin sigmax psrlist).1.1).*2
  in
  tally (select FoM_dict ptas backends Tmin sigmax psrlist).1.1 =
  (length (filter (fun v => entry_pta v = ["EPTA"]) vals),
   length (filter (fun v => entry_pta v = ["NANOGrav"]) vals),
   length (filter (fun v => entry_pta v = ["PPTA"]) vals)).
Proof.
  intros vals. unfold tally, tally_values. fold vals.
  rewrite tally_fold_singletons; [reflexivity|].
  intros v Hv. destruct (psrdict_values_singleton _ _ _ _ _ _ _ Hv)
    as (p & Hp & _). eauto.
Qed.

(** X16: when the candidate list holds no other PTA than EPTA, NANOGrav
    and PPTA, as in the notebook, the three counters add up to the number
    of entries of [psrdict]. *)
Theorem tally_adds_up FoM_dict ptas backends Tmin sigmax psrlist :
  (forall p, p ∈ ptas -> p ∈ ["EPTA"; "NANOGrav"; "PPTA"]) ->
  counts_sum (tally (select FoM_dict ptas backends Tmin sigmax psrlist).1.1)
  = size (select FoM_dict ptas backends Tmin sigmax psrlist).1.1.
Proof.
  intros Hthree. unfold tally, tally_values.
  rewrite tally_fold_sum.
  - unfold counts_sum. simpl. rewrite length_fmap, length_map_to_list.
    reflexivity.
  - intros v Hv. destruct (psrdict_values_singleton _ _ _ _ _ _ _ Hv)
      as (p & Hp & Hin). eauto.
Qed.

End TallyExtras.

(** ** More on the scorer formulas *)

Section ScorerExtras.

Import Scorer.
Local Open Scope R_scope.

Lemma Rpower_positive x y : 0 < Rpower x y.
Proof. unfold Rpower. apply exp_pos. Qed.

Lemma gwb_FoM_weak_positive T dt sigma :
  0 < dt -> 0 < sigma -> 0 < gwb_FoM_weak T dt sigma.
Proof.
  intros Hdt Hs. unfold gwb_FoM_weak.
  apply Rdiv_lt_0_compat; [|exact Hdt].
  apply Rdiv_lt_0_compat; [apply Rpower_positive|]. apply pow_lt. exact Hs.
Qed.

Lemma gwb_FoM_inter_positive T dt sigma : 0 < gwb_FoM_inter T dt sigma.
Proof.
  unfold gwb_FoM_inter. apply Rmult_lt_0_compat; apply Rpower_positive.
Qed.

(** The weak-signal FoM is the intermediate one raised to the power 26/3. *)
Lemma gwb_weak_as_power T dt sigma :
  0 < T -> 0 < dt -> 0 < sigma ->
  gwb_FoM_weak T dt sigma = Rpower (gwb_FoM_inter T dt sigma) (26 / 3).
Proof.
  intros HT Hdt Hs. unfold gwb_FoM_weak, gwb_FoM_inter.
  assert (Hx : 0 < sigma ^ 2 * dt)
    by (apply Rmult_lt_0_compat; [apply pow_lt|]; assumption).
  rewrite <- (Rpower_mult_distr _ _ (26 / 3)) by apply Rpower_positive.
  rewrite !Rpower_mult.
  replace (1 / 2 * (26 / 3)) with (13 / 3) by lra.
  replace (-1 / (2 * 13 / 3) * (26 / 3)) with (- (1)) by lra.
  rewrite Rpower_Ropp, (Rpower_1 _ Hx).
  unfold Rdiv. rewrite Rinv_mult, Rmult_assoc. reflexivity.
Qed.

Lemma gwb_inter_as_power T dt sigma :
  0 < T -> 0 < dt -> 0 < sigma ->
  gwb_FoM_inter T dt sigma = Rpower (gwb_FoM_weak T dt sigma) (3 / 26).
Proof.
  intros HT Hdt Hs. rewrite (gwb_weak_as_power T dt sigma HT Hdt Hs).
  rewrite Rpower_mult. replace (26 / 3 * (3 / 26)) with 1 by lra.
  symmetry. apply Rpower_1. apply gwb_FoM_inter_positive.
Qed.

Lemma gwb_FoM_weak_increasing_T T T' dt sigma :
  0 < T -> 0 < dt -> 0 < sigma -> T < T' ->
  gwb_FoM_weak T dt sigma < gwb_FoM_weak T' dt sigma.
Proof.
  intros HT Hdt Hs HTT. unfold gwb_FoM_weak.
  apply div_increasing_l; [exact Hdt|].
  apply div_increasing_l; [apply pow_lt; exact Hs|].
  apply Rlt_Rpower_l; lra.
Qed.

Lemma gwb_FoM_weak_decreasing_dt T dt dt' sigma :
  0 < dt -> 0 < sigma -> dt < dt' ->
  gwb_FoM_weak T dt' sigma < gwb_FoM_weak T dt sigma.
Proof.
  intros Hdt Hs Hdd. unfold gwb_FoM_weak.
  apply div_decreasing_r; [|exact Hdt|exact Hdd].
  apply Rdiv_lt_0_compat; [apply Rpower_positive|apply pow_lt; exact Hs].
Qed.

Lemma gwb_FoM_weak_decreasing_sigma T dt sigma sigma' :
  0 < dt -> 0 < sigma -> sigma < sigma' ->
  gwb_FoM_weak T dt sigma' < gwb_FoM_weak T dt sigma.
Proof.
  intros Hdt Hs Hss. unfold gwb_FoM_weak.
  apply div_increasing_l; [exact Hdt|].
  apply div_decreasing_r; [apply Rpower_positive|apply pow_lt; exact Hs|].
  simpl. rewrite !Rmult_1_r. nra.
Qed.

(** X17: for positive arguments the two GWB figures of merit rank any two
    (pulsar, PTA) pairs in the same way: [gwb_FoM_weak] is
    [gwb_FoM_inter] raised to the power 26/3. *)
Theorem gwb_FoMs_rank_alike T1 dt1 s1 T2 dt2 s2 :
  0 < T1 -> 0 < dt1 -> 0 < s1 -> 0 < T2 -> 0 < dt2 -> 0 < s2 ->
  gwb_FoM_weak T1 dt1 s1 = Rpower (gwb_FoM_inter T1 dt1 s1) (26 / 3) /\
  (gwb_FoM_inter T1 dt1 s1 < gwb_FoM_inter T2 dt2 s2 <->
   gwb_FoM_weak T1 dt1 s1 < gwb_FoM_weak T2 dt2 s2).
Proof.
  intros HT1 Hd1 Hs1 HT2 Hd2 Hs2.
  split; [apply gwb_weak_as_power; assumption|].
  split; intros H.
  - rewrite !gwb_weak_as_power by assumption.
    apply Rlt_Rpower_l; [lra|].
    split; [apply gwb_FoM_inter_positive|exact H].
  - rewrite !gwb_inter_as_power by assumption.
    apply Rlt_Rpower_l; [lra|].
    split; [apply gwb_FoM_weak_positive; assumption|exact H].
Qed.

(** X18: for positive arguments [gwb_FoM_weak] grows strictly with [Tobs]
    and falls strictly with [dt] and with [TOAerr]. *)
Theorem gwb_FoM_weak_monotone (T dt sigma : R) :
  0 < T -> 0 < dt -> 0 < sigma ->
  (forall T', T < T' -> gwb_FoM_weak T dt sigma < gwb_FoM_weak T' dt sigma) /\
  (forall dt', dt < dt' ->
     gwb_FoM_weak T dt' sigma < gwb_FoM_weak T dt sigma) /\
  (forall sigma', sigma < sigma' ->
     gwb_FoM_weak T dt sigma' < gwb_FoM_weak T dt sigma).
Proof.
  intros HT Hdt Hs. repeat split.
  - intros T' H. apply gwb_FoM_weak_increasing_T; assumption.
  - intros dt' H. apply gwb_FoM_weak_decreasing_dt; assumption.
  - intros sigma' H. apply gwb_FoM_weak_decreasing_sigma; assumption.
Qed.

(** X19: for positive arguments [gwb_FoM_inter] grows strictly with
    [Tobs] and falls strictly with [dt] and with [TOAerr]. *)
Theorem gwb_FoM_inter_monotone (T dt sigma : R) :
  0 < T -> 0 < dt -> 0 < sigma ->
  (forall T', T < T' ->
     gwb_FoM_inter T dt sigma < gwb_FoM_inter T' dt sigma) /\
  (forall dt', dt < dt' ->
     gwb_FoM_inter T dt' sigma < gwb_FoM_inter T dt sigma) /\
  (forall sigma', sigma < sigma' ->
     gwb_FoM_inter T dt sigma' < gwb_FoM_inter T dt sigma).
Proof.
  intros HT Hdt Hs.
  assert (Hup : forall a b, 0 < a -> a < b ->
            Rpower a (3 / 26) < Rpower b (3 / 26))
    by (intros a b Ha Hab; apply Rlt_Rpower_l; lra).
  repeat split.
  - intros T' H. rewrite !gwb_inter_as_power by lra.
    apply Hup; [apply gwb_FoM_weak_positive; assumption|].
    apply gwb_FoM_weak_increasing_T; assumption.
  - intros dt' H. rewrite !gwb_inter_as_power by lra.
    apply Hup; [apply gwb_FoM_weak_positive; lra|].
    apply gwb_FoM_weak_decreasing_dt; assumption.
  - intros sigma' H. rewrite !gwb_inter_as_power by lra.
    apply Hup; [apply gwb_FoM_weak_positive; lra|].
    apply gwb_FoM_weak_decreasing_sigma; assumption.
Qed.

(** X20: for positive arguments each of the three figures of merit is
    greater than 0. *)
Theorem FoM_positive (T dt sigma : R) :
  0 < T -> 0 < dt -> 0 < sigma ->
  0 < bwm_FoM T dt sigma /\ 0 < gwb_FoM_weak T dt sigma /\
  0 < gwb_FoM_inter T dt sigma.
Proof.
  intros HT Hdt Hs. split; [|split].
  - unfold bwm_FoM. apply Rdiv_lt_0_compat; [|exact Hs].
    apply sqrt_lt_R0. apply Rdiv_lt_0_compat; [apply pow_lt|]; assumption.
  - apply gwb_FoM_weak_positive; assumption.
  - apply gwb_FoM_inter_positive.
Qed.

(** X21: for positive arguments [bwm_FoM] is the figure of merit of the
    notebook's text, sqrt(T^3 / (sigma^2 * dt)). *)
Theorem bwm_FoM_as_documented (T dt sigma : R) :
  0 < T -> 0 < dt -> 0 < sigma ->
  bwm_FoM T dt sigma = sqrt (T ^ 3 / (sigma ^ 2 * dt)).
Proof.
  intros HT Hdt Hs. unfold bwm_FoM.
  replace (T ^ 3 / (sigma ^ 2 * dt)) with (T ^ 3 / dt / sigma ^ 2)
    by (field; lra).
  rewrite (sqrt_div_alt (T ^ 3 / dt) (sigma ^ 2)) by (apply pow_lt; exact Hs).
  rewrite sqrt_pow2 by lra. reflexivity.
Qed.

End ScorerExtras.

(** ** File names *)

Section PathExtras.

Import Stdlib.Strings.Ascii.
Import Paths.

Lemma split_char_nonempty c s : split_char c s <> [].
Proof.
  destruct s as [|x s]; simpl; [discriminate|].
  destruct (Ascii.eqb x c); [discriminate|].
  destruct (split_char c s); discriminate.
Qed.

Lemma split_char_app c s1 s2 :
  split_char c (s1 +:+ String c s2) = split_char c s1 ++ split_char c s2.
Proof.
  induction s1 as [|x s1 IH]; simpl.
  - rewrite Ascii.eqb_refl. reflexivity.
  - destruct (Ascii.eqb x c); [rewrite IH; reflexivity|].
    rewrite IH. pose proof (split_char_nonempty c s1) as Hne.
    destruct (split_char c s1) as [|h t]; [contradiction|reflexivity].
Qed.

Lemma split_char_absent c s : occurs c s = false -> split_char c s = [s].
Proof.
  induction s as [|x s IH]; simpl; [reflexivity|].
  intros H. apply orb_false_iff in H as [Hx Hs].
  rewrite Hx, (IH Hs). reflexivity.
Qed.

Lemma split_char_pieces c s : Forall (fun p => occurs c p = false) (split_char c s).
Proof.
  induction s as [|x s IH]; simpl.
  - repeat constructor.
  - destruct (Ascii.eqb x c) eqn:E; [constructor; [reflexivity|exact IH]|].
    destruct (split_char c s) as [|h t]; [repeat constructor; simpl; rewrite E; reflexivity|].
    apply Forall_cons in IH as [Hh Ht].
    constructor; [simpl; rewrite E, Hh; reflexivity|exact Ht].
Qed.

Lemma last_app_nonempty {A} (l1 l2 : list A) :
  l2 <> [] -> last (l1 ++ l2) = last l2.
Proof.
  intros Hne. destruct l2 as [|x l2] using rev_ind; [contradiction|].
  rewrite app_assoc, !last_snoc. reflexivity.
Qed.

Lemma basename_join dir name :
  basename (dir +:+ String "/"%char name) = basename name.
Proof.
  unfold basename. rewrite split_char_app.
  apply last_app_nonempty, split_char_nonempty.
Qed.

Lemma occurs_app c s1 s2 : occurs c (s1 +:+ s2) = occurs c s1 || occurs c s2.
Proof.
  induction s1 as [|x s1 IH]; simpl; [reflexivity|].
  rewrite IH, orb_assoc. reflexivity.
Qed.

(** The last piece of a split, and what stands before it. *)
Lemma split_char_last c s :
  exists init name,
    split_char c s = init ++ [name] /\ occurs c name = false /\
    ((init = [] /\ s = name) \/
     (init <> [] /\ exists dir, s = dir +:+ String c name)).
Proof.
  induction s as [|x s IH]; simpl.
  - exists [], EmptyString. auto.
  - destruct IH as (init & name & Hsplit & Hname & Hshape).
    destruct (Ascii.eqb x c) eqn:E.
    + apply Ascii.eqb_eq in E as ->.
      exists (EmptyString :: init), name. rewrite Hsplit.
      split; [reflexivity|]. split; [exact Hname|]. right.
      split; [discriminate|].
      destruct Hshape as [[_ ->]|[_ [dir ->]]].
      * exists EmptyString. reflexivity.
      * exists (String c dir). reflexivity.
    + rewrite Hsplit. destruct init as [|h t]; simpl.
      * exists [], (String x name). split; [reflexivity|].
        split; [simpl; rewrite E, Hname; reflexivity|]. left.
        destruct Hshape as [[_ ->]|[Hne _]]; [auto|contradiction].
      * exists (String x h :: t), name. split; [reflexivity|].
        split; [exact Hname|]. right. split; [discriminate|].
        destruct Hshape as [[Hnil _]|[_ [dir ->]]]; [discriminate|].
        exists (String x dir). reflexivity.
Qed.

Lemma stem_total x : is_Some (stem x).
Proof.
  unfold stem, basename.
  destruct (split_char_last "/"%char x) as (init & name & -> & _).
  rewrite last_snoc.
  pose proof (split_char_nonempty "."%char name) as Hne.
  destruct (split_char "."%char name); [contradiction|]. simpl. eauto.
Qed.

(** X22: [x.split('/')[-1]] never raises: it is the part of the path after
    its last ['/'], or the whole path when there is none, and holds no
    ['/'] itself. *)
Theorem basename_is_last_component path :
  exists name,
    basename path = Some name /\ occurs "/"%char name = false /\
    (path = name \/ exists dir, path = dir +:+ String "/"%char name).
Proof.
  unfold basename.
  destruct (split_char_last "/"%char path) as (init & name & -> & Hn & Hs).
  exists name. rewrite last_snoc. split; [reflexivity|]. split; [exact Hn|].
  destruct Hs as [[_ ->]|[_ [dir ->]]]; eauto.
Qed.

(** X23: the name recovered from a file path [dir/name.ext] is [name],
    for every directory, whenever [name] holds no ['/'] and no ['.'] and
    the extension no ['/']: the way the par and tim files are named is
    undone by [x.split('/')[-1].split('.')[0]]. *)
Theorem stem_of_named_file dir name ext :
  occurs "/"%char name = false -> occurs "."%char name = false ->
  occurs "/"%char ext = false ->
  stem (dir +:+ String "/"%char (name +:+ String "."%char ext)) = Some name.
Proof.
  intros Hslash Hdot Hext. unfold stem. rewrite basename_join.
  unfold basename. rewrite split_char_absent.
  - simpl. rewrite split_char_app, (split_char_absent _ _ Hdot). reflexivity.
  - rewrite occurs_app. simpl. rewrite Hslash, Hext. reflexivity.
Qed.

(** X24: the filter on file names never raises, keeps the files in
    their order, and keeps exactly those whose name is in [psrlist]. *)
Theorem keep_listed_keeps_listed psrlist files :
  exists kept,
    keep_listed psrlist files = Some kept /\
    sublist kept files /\
    forall x, x ∈ kept <->
      x ∈ files /\ exists name, stem x = Some name /\ name ∈ psrlist.
Proof.
  induction files as [|x files IH]; simpl.
  - exists []. split; [reflexivity|]. split; [constructor|].
    intros y. split; [intros H; inversion H|intros [H _]; inversion H].
  - destruct IH as (kept & -> & Hsub & Hiff).
    destruct (stem_total x) as [name Hname]. rewrite Hname.
    case_bool_decide as Hin; eexists; (split; [reflexivity|]); split.
    + apply sublist_skip. exact Hsub.
    + intros y. rewrite !elem_of_cons, Hiff. split.
      * intros [->|[Hy Hex]]; [eauto|auto].
      * intros [[->|Hy] Hex]; auto.
    + apply sublist_cons. exact Hsub.
    + intros y. rewrite elem_of_cons, Hiff. split.
      * intros [Hy Hex]; auto.
      * intros [[->|Hy] Hex]; [|auto].
        destruct Hex as (n & Hn & Hnin). congruence.
Qed.

(** X25: when the par files and the tim files come in the same order of
    pulsar names, they still do after both lists are filtered, so
    [zip(parfiles, timfiles)] pairs each par file with the tim file of
    the same pulsar. *)
Theorem filtered_files_stay_aligned psrlist pars tims :
  Forall2 (fun p t => stem p = stem t) pars tims ->
  exists pars' tims',
    keep_listed psrlist pars = Some pars' /\
    keep_listed psrlist tims = Some tims' /\
    Forall2 (fun p t => stem p = stem t) pars' tims'.
Proof.
  induction 1 as [|p t pars tims Hpt Hrest IH]; simpl.
  - exists [], []. repeat split; constructor.
  - destruct IH as (pars' & tims' & -> & -> & Hall).
    destruct (stem_total p) as [name Hname].
    rewrite <- Hpt, Hname.
    case_bool_decide; eexists; eexists; (split; [reflexivity|]);
      (split; [reflexivity|]); [constructor; assumption|assumption].
Qed.

End PathExtras.

(** ** Reading a PAL2 noise file *)

Section NoiseExtras.

Import Stdlib.Strings.Ascii.
Import Paths Noise.

Variable to_float : string -> option number.

Lemma prefix_app a b : String.prefix a (a +:+ b) = true.
Proof.
  induction a as [|x a IH]; simpl; [destruct b; reflexivity|].
  destruct (ascii_dec x x); [exact IH|contradiction].
Qed.

Lemma prefix_first_differs c sep x s :
  x <> c -> String.prefix (String c sep) (String x s) = false.
Proof.
  intros Hne. simpl. destruct (ascii_dec c x); [congruence|reflexivity].
Qed.

Lemma contains_of_prefix a s : String.prefix a s = true -> contains a s = true.
Proof. destruct s; unfold contains; intros ->; reflexivity. Qed.

Lemma contains_prefix a b : contains a (a +:+ b) = true.
Proof. apply contains_of_prefix, prefix_app. Qed.

Lemma split_from_nonempty sep s skip : split_from sep s skip <> [].
Proof.
  revert skip. induction s as [|x s IH]; intros skip; cbn [split_from];
    [discriminate|].
  destruct skip; [|apply IH].
  destruct (String.prefix sep (String x s)); [discriminate|].
  destruct (split_from sep s 0); discriminate.
Qed.

Lemma split_from_skip sep p s :
  split_from sep (p +:+ s) (String.length p) = split_from sep s 0.
Proof. induction p as [|x p IH]; simpl; [reflexivity|exact IH]. Qed.

(** The first piece, when the first character of the separator does not
    occur before the separator. *)
Lemma split_str_first c sep name rest :
  occurs c name = false ->
  split_str (String c sep) (name +:+ String c sep +:+ rest) =
  name :: split_str (String c sep) rest.
Proof.
  unfold split_str. induction name as [|x name IH]; intros Hocc.
  - change (EmptyString +:+ String c sep +:+ rest)
      with (String c (sep +:+ rest)).
    cbn [split_from].
    change (String c (sep +:+ rest)) with (String c sep +:+ rest).
    rewrite prefix_app. cbn [String.length]. rewrite Nat.sub_1_r. cbn [pred].
    rewrite split_from_skip. reflexivity.
  - simpl in Hocc. apply orb_false_iff in Hocc as [Hx Hrest].
    change (String x name +:+ String c sep +:+ rest)
      with (String x (name +:+ String c sep +:+ rest)).
    cbn [split_from]. rewrite prefix_first_differs
      by (intros ->; rewrite Ascii.eqb_refl in Hx; discriminate).
    rewrite (IH Hrest). reflexivity.
Qed.

Lemma split_str_absent sep s : contains sep s = false -> split_str sep s = [s].
Proof.
  unfold split_str. induction s as [|x s IH]; intros H; [reflexivity|].
  cbn [contains] in H. apply orb_false_iff in H as [Hp Hs].
  cbn [split_from]. rewrite Hp, (IH Hs). reflexivity.
Qed.

Lemma spaceless_app a b : spaceless (a +:+ b) = spaceless a && spaceless b.
Proof.
  induction a as [|x a IH]; simpl; [reflexivity|].
  rewrite IH, andb_assoc. reflexivity.
Qed.

(** A token followed by white space. *)
Lemma words_token tok sp rest :
  tok <> EmptyString -> spaceless tok = true -> is_space sp = true ->
  words (tok +:+ String sp rest) = tok :: words rest.
Proof.
  induction tok as [|x tok IH]; intros Hne Hsl Hsp; [contradiction|].
  simpl in Hsl. apply andb_true_iff in Hsl as [Hx Htok].
  apply negb_true_iff in Hx.
  change (String x tok +:+ String sp rest)
    with (String x (tok +:+ String sp rest)).
  cbn [words]. rewrite Hx.
  destruct tok as [|y tok].
  - simpl. rewrite Hsp. reflexivity.
  - assert (Hy : is_space y = false).
    { simpl in Htok. apply andb_true_iff in Htok as [Hy _].
      apply negb_true_iff in Hy. exact Hy. }
    rewrite (IH ltac:(discriminate) Htok Hsp).
    change (String y tok +:+ String sp rest)
      with (String y (tok +:+ String sp rest)).
    lazy iota. rewrite Hy. reflexivity.
Qed.

(** A line that holds a keyword has a first token. *)
Lemma contains_has_token k kw line :
  is_space k = false -> contains (String k kw) line = true ->
  words line <> [].
Proof.
  intros Hk. induction line as [|x line IH]; simpl; [discriminate|].
  destruct (ascii_dec k x) as [<-|Hne].
  - intros _. rewrite Hk. destruct line as [|y line]; [discriminate|].
    destruct (is_space y); [discriminate|].
    destruct (words (String y line)); discriminate.
  - simpl. intros H. specialize (IH H).
    destruct (is_space x); [exact IH|].
    destruct line as [|y line]; [discriminate|].
    destruct (is_space y); [discriminate|].
    destruct (words (String y line)); discriminate.
Qed.

Lemma flag_after_total key k kw line :
  is_space k = false -> contains (String k kw) line = true ->
  exists flag, flag_after key (words line) = inr flag.
Proof.
  intros Hk Hc. pose proof (contains_has_token k kw line Hk Hc) as Hne.
  unfold flag_after. destruct (words line) as [|tok toks]; [contradiction|].
  simpl. unfold item_last, split_str.
  pose proof (split_from_nonempty key tok 0) as Hs.
  destruct (split_from key tok 0) as [|h t] using rev_ind; [contradiction|].
  rewrite last_snoc. eauto.
Qed.

(** What [classify] can give: never an exception, and a keyword line has
    a first token. *)
Lemma classify_cases line :
  classify line (words line) = None \/
  (exists par flag, classify line (words line) = Some (inr (par, flag)) /\
                    words line <> []).
Proof.
  unfold classify.
  destruct (contains "efac" line) eqn:E1.
  { right. destruct (flag_after_total "efac-" "e"%char "fac" line eq_refl E1) as [f ->].
    exists "efac", f. split; [reflexivity|].
    exact (contains_has_token "e"%char "fac" line eq_refl E1). }
  destruct (contains "equad" line) eqn:E2.
  { right. destruct (flag_after_total "equad-" "e"%char "quad" line eq_refl E2) as [f ->].
    exists "log10_equad", f. split; [reflexivity|].
    exact (contains_has_token "e"%char "quad" line eq_refl E2). }
  destruct (contains "jitter_q" line) eqn:E3.
  { right. destruct (flag_after_total "jitter_q-" "j"%char "itter_q" line eq_refl E3)
      as [f ->].
    exists "log10_ecorr", f. split; [reflexivity|].
    exact (contains_has_token "j"%char "itter_q" line eq_refl E3). }
  destruct (contains "RN-Amplitude" line) eqn:E4.
  { right. exists "log10_A", EmptyString. split; [reflexivity|].
    exact (contains_has_token "R"%char "N-Amplitude" line eq_refl E4). }
  destruct (contains "RN-spectral-index" line) eqn:E5.
  { right. exists "gamma", EmptyString. split; [reflexivity|].
    exact (contains_has_token "R"%char "N-spectral-index" line eq_refl E5). }
  left. reflexivity.
Qed.

(** X26: on one line the function raises [IndexError] only when the line
    holds a keyword and a single token, so that [ln[1]] is missing
    ([ln[0]] never fails), and [ValueError] only when [float] rejects the
    second token. *)
Theorem read_line_exceptions psrname params line :
  (read_line to_float psrname params line = Some (inl IndexError) ->
   length (words line) = 1) /\
  (read_line to_float psrname params line = Some (inl ValueError) ->
   exists tok0 tok toks,
     words line = tok0 :: tok :: toks /\ to_float tok = None).
Proof.
  unfold read_line.
  destruct (classify_cases line) as [->|(par & flag & -> & Hne)].
  { split; discriminate. }
  destruct (words line) as [|tok0 [|tok toks]]; [contradiction| |]; simpl.
  - split; [reflexivity|discriminate].
  - destruct (to_float tok) eqn:E; split; try discriminate.
    intros _. eauto.
Qed.

Lemma read_lines_break psrname bad l2 : forall l1 params,
  classify bad (words bad) = None ->
  read_lines to_float psrname (l1 ++ bad :: l2) params =
  read_lines to_float psrname l1 params.
Proof.
  induction l1 as [|line l1 IH]; intros params Hbad; simpl.
  - unfold read_line. rewrite Hbad. reflexivity.
  - destruct (read_line to_float psrname params line) as [[e|params']|];
      [reflexivity|apply IH; exact Hbad|reflexivity].
Qed.

(** X27: the loop stops at the first line that holds none of the five
    keywords: whatever follows that line has no effect on the result,
    and the line itself is not read. *)
Theorem lines_after_break_ignored noisefile l1 bad l2 :
  contains "efac" bad = false -> contains "equad" bad = false ->
  contains "jitter_q" bad = false -> contains "RN-Amplitude" bad = false ->
  contains "RN-spectral-index" bad = false ->
  get_noise_from_pal2 to_float noisefile (l1 ++ bad :: l2) =
  get_noise_from_pal2 to_float noisefile l1.
Proof.
  intros H1 H2 H3 H4 H5. unfold get_noise_from_pal2.
  destruct (psrname_of noisefile) as [e|psrname]; [reflexivity|].
  apply read_lines_break. unfold classify.
  rewrite H1, H2, H3, H4, H5. reflexivity.
Qed.

(** X28: a line [efac-<flag> <value>] followed by white space, with a
    flag that is not empty and holds neither white space nor ["efac-"],
    stores [float(value)] under the key
    ['_'.join([psrname, flag, 'efac'])]. *)
Theorem efac_line_read psrname params flag value sp1 sp2 rest x :
  flag <> EmptyString -> spaceless flag = true ->
  contains "efac-" flag = false ->
  value <> EmptyString -> spaceless value = true ->
  is_space sp1 = true -> is_space sp2 = true ->
  to_float value = Some x ->
  read_line to_float psrname params
    ("efac-" +:+ flag +:+ String sp1 (value +:+ String sp2 rest)) =
  Some (inr (<[String.concat "_" [psrname; flag; "efac"] := x]> params)).
Proof.
  intros Hf Hfs Hfc Hv Hvs Hsp1 Hsp2 Hx. unfold read_line.
  assert (Hwords : words ("efac-" +:+ flag +:+ String sp1
                            (value +:+ String sp2 rest)) =
                   ("efac-" +:+ flag) :: value :: words rest).
  { change ("efac-" +:+ flag +:+ String sp1 (value +:+ String sp2 rest))
      with (("efac-" +:+ flag) +:+ String sp1 (value +:+ String sp2 rest)).
    rewrite words_token; [|discriminate| |exact Hsp1].
    - rewrite words_token by assumption. reflexivity.
    - rewrite spaceless_app, Hfs. reflexivity. }
  rewrite Hwords.
  assert (Hc : contains "efac"
                 ("efac-" +:+ flag +:+ String sp1 (value +:+ String sp2 rest))
               = true).
  { change ("efac-" +:+ flag +:+ String sp1 (value +:+ String sp2 rest))
      with ("efac" +:+ String "-"%char
              (flag +:+ String sp1 (value +:+ String sp2 rest))).
    apply contains_prefix. }
  unfold classify. rewrite Hc. unfold flag_after. cbn [item0].
  assert (Hsplit : split_str "efac-" ("efac-" +:+ flag) = [EmptyString; flag]).
  { change ("efac-" +:+ flag) with (EmptyString +:+ "efac-" +:+ flag).
    rewrite (split_str_first "e"%char "fac-" EmptyString flag eq_refl).
    rewrite (split_str_absent _ _ Hfc). reflexivity. }
  rewrite Hsplit. unfold item_last. cbn [last item1]. rewrite Hx.
  unfold pname. destruct flag; [contradiction|reflexivity].
Qed.

(** X29: the pulsar name taken from a path [dir/NAME_noise.txt] is
    [NAME], for every directory, whenever [NAME] holds no ['/'] and no
    ['_']. *)
Theorem psrname_of_noisefile dir name :
  occurs "/"%char name = false -> occurs "_"%char name = false ->
  psrname_of (dir +:+ String "/"%char (name +:+ "_noise.txt")) = inr name.
Proof.
  intros Hslash Hus. unfold psrname_of. rewrite basename_join.
  unfold basename. rewrite split_char_absent
    by (rewrite occurs_app, Hslash; reflexivity).
  cbn [last].
  change (name +:+ "_noise.txt")
    with (name +:+ "_noise.txt" +:+ EmptyString).
  rewrite (split_str_first "_"%char "noise.txt" name EmptyString Hus).
  reflexivity.
Qed.

End NoiseExtras.

(** ** The further properties at concrete inputs *)

Section MoreInstances.

Import Stdlib.Strings.Ascii.
Import Examples MoreExamples Paths Noise Tally.

Ltac names H :=
  repeat (apply elem_of_cons in H as [->|H]);
  [..|apply elem_of_nil in H; destruct H].

Ltac not_listed :=
  let H := fresh in
  intros H; repeat (apply elem_of_cons in H as [H|H]; [discriminate|]);
  apply elem_of_nil in H; exact H.

Lemma unlisted_or_unknown_unassigned_witness :
  ("J9999+9999" ∉ [psr]) /\
  (select plain_dict ptas0 backends0 Tmin0 sigmax0 [psr]).1.1
    !! "J9999+9999" = None.
Proof.
  assert (H : "J9999+9999" ∉ [psr]) by not_listed.
  split; [exact H|].
  apply (unlisted_or_unknown_unassigned plain_dict ptas0 backends0 Tmin0
           sigmax0 [psr] "J9999+9999"). left. exact H.
Defined.

Lemma entry_is_candidate_with_backends_witness :
  exists e p g,
    (select plain_dict ptas0 backends0 Tmin0 sigmax0 [psr]).1.1 !! psr
      = Some e /\
    p ∈ ptas0 /\ backends0 !! p = Some g /\ e = Entry [p] g.
Proof.
  destruct ((select plain_dict ptas0 backends0 Tmin0 sigmax0 [psr]).1.1 !! psr)
    as [e|] eqn:E; [|vm_compute in E; discriminate].
  destruct (entry_is_candidate_with_backends plain_dict ptas0 backends0 Tmin0
              sigmax0 [psr] psr e E) as (p & g & H1 & H2 & H3).
  exists e, p, g. auto.
Defined.

Lemma assigned_iff_positive_offer_witness :
  (select plain_dict ptas0 backends0 Tmin0 sigmax0 [psr]).2 = None /\
  psr ∈ [psr] /\
  offer plain_dict Tmin0 sigmax0 psr "EPTA" = Some (Finite 8, Finite 25) /\
  is_Some ((select plain_dict ptas0 backends0 Tmin0 sigmax0 [psr]).1.1 !! psr).
Proof.
  assert (Hdone : (select plain_dict ptas0 backends0 Tmin0 sigmax0 [psr]).2
                  = None) by (vm_compute; reflexivity).
  assert (Hin : psr ∈ [psr]) by apply list_elem_of_here.
  split; [exact Hdone|]. split; [exact Hin|].
  split; [vm_compute; reflexivity|].
  apply (assigned_iff_positive_offer plain_dict ptas0 backends0 Tmin0 sigmax0
           [psr] psr Hdone Hin).
  exists "EPTA", (Finite 8), (Finite 25).
  split; [apply list_elem_of_further, list_elem_of_here|].
  split; vm_compute; reflexivity.
Defined.

Lemma run_stops_at_missing_backends_witness :
  let bk := delete "NANOGrav" backends0 in
  (select two_dict ptas0 bk Tmin0 sigmax0 [psr]).2 = None /\
  best_pta (best_for two_dict ptas0 Tmin0 sigmax0 psr2) = Some "NANOGrav" /\
  bk !! "NANOGrav" = None /\
  select two_dict ptas0 bk Tmin0 sigmax0 [psr; psr2; psr] =
  ((select two_dict ptas0 bk Tmin0 sigmax0 [psr]).1,
   Some (KeyError "NANOGrav")).
Proof.
  intros bk.
  assert (H1 : (select two_dict ptas0 bk Tmin0 sigmax0 [psr]).2 = None)
    by (vm_compute; reflexivity).
  assert (H2 : best_pta (best_for two_dict ptas0 Tmin0 sigmax0 psr2)
               = Some "NANOGrav") by (vm_compute; reflexivity).
  assert (H3 : bk !! "NANOGrav" = None) by (vm_compute; reflexivity).
  split; [exact H1|]. split; [exact H2|]. split; [exact H3|].
  apply (proj1 (run_stops_at_missing_backends two_dict ptas0 bk Tmin0 sigmax0
                  [psr; psr2; psr] "NANOGrav") [psr] psr2 [psr]);
    [reflexivity|assumption..].
Defined.

Lemma psrdict_ignores_order_witness :
  (select two_dict ptas0 backends0 Tmin0 sigmax0 [psr; psr2]).2 = None /\
  (select two_dict ptas0 backends0 Tmin0 sigmax0 [psr2; psr; psr2]).2 = None /\
  (select two_dict ptas0 backends0 Tmin0 sigmax0 [psr2; psr; psr2]).1.1 =
  (select two_dict ptas0 backends0 Tmin0 sigmax0 [psr; psr2]).1.1.
Proof.
  assert (Hdone : (select two_dict ptas0 backends0 Tmin0 sigmax0
                     [psr; psr2]).2 = None) by (vm_compute; reflexivity).
  split; [exact Hdone|].
  apply (psrdict_ignores_order two_dict ptas0 backends0 Tmin0 sigmax0
           [psr; psr2] [psr2; psr; psr2]); [|exact Hdone].
  intros x. split; intros H; names H;
    repeat (first [apply list_elem_of_here|apply list_elem_of_further]).
Defined.

Lemma printed_rows_in_order_witness :
  (select two_dict ptas0 backends0 Tmin0 sigmax0 [psr2; psr]).2 = None /\
  (select two_dict ptas0 backends0 Tmin0 sigmax0 [psr2; psr]).1.2 =
  (fun x => (x, best_for two_dict ptas0 Tmin0 sigmax0 x)) <$>
  filter (fun x => is_Some (best_pta (best_for two_dict ptas0 Tmin0 sigmax0 x)))
    [psr2; psr].
Proof.
  assert (Hdone : (select two_dict ptas0 backends0 Tmin0 sigmax0
                     [psr2; psr]).2 = None) by (vm_compute; reflexivity).
  split; [exact Hdone|].
  apply (printed_rows_in_order two_dict ptas0 backends0 Tmin0 sigmax0
           [psr2; psr] Hdone).
Defined.

Lemma rows_match_entries_witness :
  NoDup [psr; psr2] /\
  length (select two_dict ptas0 backends0 Tmin0 sigmax0 [psr; psr2]).1.2 =
  size (select two_dict ptas0 backends0 Tmin0 sigmax0 [psr; psr2]).1.1.
Proof.
  assert (Hnd : NoDup [psr; psr2]).
  { repeat constructor; not_listed. }
  split; [exact Hnd|].
  apply (rows_match_entries two_dict ptas0 backends0 Tmin0 sigmax0
           [psr; psr2] Hnd).
Defined.

Lemma looser_thresholds_keep_assignments_witness :
  num_le Tmin0 (Finite 7) = true /\ num_le (Finite 1.8) sigmax0 = true /\
  num_le (best_FoM (best_for plain_dict ptas0 (Finite 7) (Finite 1.8) psr))
         (best_FoM (best_for plain_dict ptas0 Tmin0 sigmax0 psr)) = true /\
  is_Some ((select plain_dict ptas0 backends0 Tmin0 sigmax0 [psr]).1.1 !! psr).
Proof.
  destruct (looser_thresholds_keep_assignments plain_dict backends0 ptas0
              (Finite 7) (Finite 1.8) Tmin0 sigmax0 [psr] psr)
    as [H1 H2]; [vm_compute; reflexivity..|].
  split; [vm_compute; reflexivity|]. split; [vm_compute; reflexivity|].
  split; [exact H1|].
  apply H2; [vm_compute; reflexivity|].
  vm_compute. eexists. reflexivity.
Defined.

Lemma best_FoM_ignores_candidate_order_witness :
  num_eq (best_FoM (best_for tie_dict ["PPTA"; "EPTA"] Tmin0 sigmax0 psr))
         (best_FoM (best_for tie_dict ["EPTA"; "PPTA"; "EPTA"] Tmin0 sigmax0
                      psr)) = true /\
  best_pta (best_for tie_dict ["PPTA"; "EPTA"] Tmin0 sigmax0 psr)
    = Some "PPTA" /\
  best_pta (best_for tie_dict ["EPTA"; "PPTA"; "EPTA"] Tmin0 sigmax0 psr)
    = Some "EPTA".
Proof.
  destruct (best_FoM_ignores_candidate_order tie_dict Tmin0 sigmax0 psr
              ["PPTA"; "EPTA"] ["EPTA"; "PPTA"; "EPTA"]) as [H _].
  - intros q. split; intros H; names H;
      repeat (first [apply list_elem_of_here|apply list_elem_of_further]).
  - split; [exact H|]. split; vm_compute; reflexivity.
Defined.

Lemma more_candidates_never_hurt_witness :
  num_le (best_FoM (best_for plain_dict ["PPTA"] Tmin0 sigmax0 psr))
         (best_FoM (best_for plain_dict ["EPTA"; "PPTA"] Tmin0 sigmax0 psr))
    = true /\
  is_Some (best_pta (best_for plain_dict ["EPTA"; "PPTA"] Tmin0 sigmax0 psr)).
Proof.
  destruct (more_candidates_never_hurt plain_dict Tmin0 sigmax0 psr
              ["PPTA"] ["EPTA"; "PPTA"]) as [H1 H2].
  - intros q H. names H. apply list_elem_of_further, list_elem_of_here.
  - split; [exact H1|]. apply H2. vm_compute. eexists. reflexivity.
Defined.

Lemma later_tied_candidate_never_stored_witness :
  exists e,
    (select tie_dict ptas0 backends0 Tmin0 sigmax0 [psr]).1.1 !! psr = Some e /\
    num_eq (Finite 10) (Finite 10) = true /\
    entry_pta e <> ["EPTA"].
Proof.
  destruct ((select tie_dict ptas0 backends0 Tmin0 sigmax0 [psr]).1.1 !! psr)
    as [e|] eqn:E; [|vm_compute in E; discriminate].
  exists e. split; [reflexivity|]. split; [reflexivity|].
  apply (later_tied_candidate_never_stored tie_dict backends0 Tmin0 sigmax0
           psr ptas0 [psr] [] "PPTA" ["EPTA"; "NANOGrav"] "EPTA"
           (Finite 6) (Finite 10) (Finite 8) (Finite 10) e);
    try (vm_compute; reflexivity); try discriminate; [|exact E].
  intros H. apply elem_of_nil in H. destruct H.
Defined.

Lemma built_records_complete_witness :
  (exists this,
     (build_example backends0 ptas0).1 !! "PPTA" = Some this /\
     (build_example backends0 ptas0).2 = None /\
     "PPTA" ∈ ptas0 /\ is_Some (backends0 !! "PPTA") /\ four_fields this) /\
  (build_example (delete "NANOGrav" backends0) ptas0).1 !! "NANOGrav"
    = Some ∅ /\
  (build_example (delete "NANOGrav" backends0) ptas0).2
    = Some (KeyError "NANOGrav").
Proof.
  split.
  - destruct ((build_example backends0 ptas0).1 !! "PPTA") as [this|] eqn:E;
      [|vm_compute in E; discriminate].
    destruct (built_records_complete unit (fun _ => ["PPTA"; "NANOGrav"])
                (fun p _ _ => p)
                (fun _ => [Finite 50000; Finite 52200])
                (fun _ => [Finite 2; Finite 2])
                (fun _ => Finite 2200) (fun _ => Finite 110) example_div
                (fun _ => Finite 2) (fun _ _ _ => Finite 10)
                backends0 tt ptas0 "PPTA" this E) as (H1 & _ & H2).
    assert (Hdone : (build_example backends0 ptas0).2 = None)
      by (vm_compute; reflexivity).
    exists this. split; [reflexivity|]. split; [exact Hdone|].
    split; [exact H1|]. exact (H2 Hdone).
  - destruct (built_records_complete unit (fun _ => ["PPTA"; "NANOGrav"])
                (fun p _ _ => p)
                (fun _ => [Finite 50000; Finite 52200])
                (fun _ => [Finite 2; Finite 2])
                (fun _ => Finite 2200) (fun _ => Finite 110) example_div
                (fun _ => Finite 2) (fun _ _ _ => Finite 10)
                (delete "NANOGrav" backends0) tt ptas0 "NANOGrav" ∅)
      as (_ & [[[g Hg] _]|(_ & _ & Hr)] & _).
    + vm_compute. reflexivity.
    + vm_compute in Hg. discriminate.
    + split; [vm_compute; reflexivity|exact Hr].
Defined.

Lemma built_record_never_raises_witness :
  (exists this,
     (build_example backends0 ptas0).1 !! "PPTA" = Some this /\
     (build_example backends0 ptas0).2 <> Some (KeyError "PPTA") /\
     exists best',
       try_body {[psr := (build_example backends0 ptas0).1]} Tmin0 sigmax0
         psr "PPTA" best_init = inr best' /\
       best_pta best' = Some "PPTA") /\
  try_body {[psr := (build_example (delete "NANOGrav" backends0) ptas0).1]}
    Tmin0 sigmax0 psr "NANOGrav" best_init = inl (KeyError "Tobs").
Proof.
  split.
  - destruct ((build_example backends0 ptas0).1 !! "PPTA") as [this|] eqn:E;
      [|vm_compute in E; discriminate].
    assert (Hno : (build_example backends0 ptas0).2 <> Some (KeyError "PPTA"))
      by (vm_compute; discriminate).
    destruct (built_record_never_raises unit (fun _ => ["PPTA"; "NANOGrav"])
                (fun p _ _ => p)
                (fun _ => [Finite 50000; Finite 52200])
                (fun _ => [Finite 2; Finite 2])
                (fun _ => Finite 2200) (fun _ => Finite 110) example_div
                (fun _ => Finite 2) (fun _ _ _ => Finite 10)
                backends0 tt ptas0
                {[psr := (build_example backends0 ptas0).1]} Tmin0 sigmax0
                psr "PPTA" this best_init (lookup_singleton_eq _ _) E)
      as [H _].
    destruct (H Hno) as [best' Hbest].
    exists this. split; [reflexivity|]. split; [exact Hno|].
    exists best'. split; [exact Hbest|].
    vm_compute in Hbest. injection Hbest as <-. reflexivity.
  - assert (E : (build_example (delete "NANOGrav" backends0) ptas0).1
                   !! "NANOGrav" = Some ∅) by (vm_compute; reflexivity).
    assert (Hr : (build_example (delete "NANOGrav" backends0) ptas0).2
                 = Some (KeyError "NANOGrav")) by (vm_compute; reflexivity).
    destruct (built_record_never_raises unit
                (fun _ => ["PPTA"; "NANOGrav"])
                (fun p _ _ => p)
                (fun _ => [Finite 50000; Finite 52200])
                (fun _ => [Finite 2; Finite 2])
                (fun _ => Finite 2200) (fun _ => Finite 110) example_div
                (fun _ => Finite 2) (fun _ _ _ => Finite 10)
                (delete "NANOGrav" backends0) tt ptas0
                {[psr := (build_example (delete "NANOGrav" backends0)
                            ptas0).1]}
                Tmin0 sigmax0 psr "NANOGrav" ∅ best_init
                (lookup_singleton_eq _ _) E) as [_ H].
    exact (proj1 (H Hr)).
Defined.

Lemma selection_on_built_dict_completes_witness :
  entry_pta <$>
    (select {[psr := (build_example backends0 ptas0).1]} ptas0 backends0
       Tmin0 sigmax0 [psr]).1.1 !! psr = Some ["PPTA"] /\
  (select {[psr := (build_example backends0 ptas0).1]} ptas0 backends0
     Tmin0 sigmax0 [psr]).2 = None /\
  (select {[psr := (build_example backends0 ptas0).1]} ptas0
     (delete "PPTA" backends0) Tmin0 sigmax0 [psr]).2
  = Some (KeyError "PPTA").
Proof.
  split; [vm_compute; reflexivity|]. split; [|vm_compute; reflexivity].
  apply (selection_on_built_dict_completes unit
           (fun _ => ["PPTA"; "NANOGrav"])
           (fun p _ _ => p)
           (fun _ => [Finite 50000; Finite 52200])
           (fun _ => [Finite 2; Finite 2])
           (fun _ => Finite 2200) (fun _ => Finite 110) example_div
           (fun _ => Finite 2) (fun _ _ _ => Finite 10)
           backends0 {[psr := (build_example backends0 ptas0).1]} ptas0
           Tmin0 sigmax0 [psr]).
  intros name of_psr H. apply lookup_singleton_Some in H as [_ <-].
  exists tt, ptas0. reflexivity.
Defined.

Lemma tally_adds_up_witness :
  counts_sum
    (tally (select two_dict ptas0 backends0 Tmin0 sigmax0 [psr; psr2]).1.1)
  = size (select two_dict ptas0 backends0 Tmin0 sigmax0 [psr; psr2]).1.1.
Proof.
  apply (tally_adds_up two_dict ptas0 backends0 Tmin0 sigmax0 [psr; psr2]).
  intros p H. names H;
    repeat (first [apply list_elem_of_here|apply list_elem_of_further]).
Defined.

Lemma stem_of_named_file_witness :
  occurs "/"%char "J0437-4715" = false /\
  occurs "."%char "J0437-4715" = false /\
  stem ("ipta_dsets/partim.v2" +:+
        String "/"%char ("J0437-4715" +:+ String "."%char "IPTADR2.par"))
  = Some "J0437-4715".
Proof.
  split; [reflexivity|]. split; [reflexivity|].
  apply (stem_of_named_file "ipta_dsets/partim.v2" "J0437-4715"
           "IPTADR2.par"); reflexivity.
Defined.

Lemma filtered_files_stay_aligned_witness :
  Forall2 (fun p t => stem p = stem t)
    ["d/J0437-4715.par"; "d/J1713+0747.par"]
    ["d/J0437-4715.tim"; "d/J1713+0747.tim"] /\
  exists pars' tims',
    keep_listed ["J1713+0747"] ["d/J0437-4715.par"; "d/J1713+0747.par"]
      = Some pars' /\
    keep_listed ["J1713+0747"] ["d/J0437-4715.tim"; "d/J1713+0747.tim"]
      = Some tims' /\
    Forall2 (fun p t => stem p = stem t) pars' tims'.
Proof.
  assert (H : Forall2 (fun p t => stem p = stem t)
                ["d/J0437-4715.par"; "d/J1713+0747.par"]
                ["d/J0437-4715.tim"; "d/J1713+0747.tim"])
    by (repeat constructor).
  split; [exact H|].
  apply (filtered_files_stay_aligned ["J1713+0747"] _ _ H).
Defined.

Lemma read_line_exceptions_witness :
  read_line to_float_example "J1713+0747" ∅ ("efac-430_ASP" +:+ newline)
    = Some (inl IndexError) /\
  length (words ("efac-430_ASP" +:+ newline)) = 1.
Proof.
  assert (H : read_line to_float_example "J1713+0747" ∅
                ("efac-430_ASP" +:+ newline) = Some (inl IndexError))
    by (vm_compute; reflexivity).
  split; [exact H|].
  apply (proj1 (read_line_exceptions to_float_example "J1713+0747" ∅
                  ("efac-430_ASP" +:+ newline)) H).
Defined.

Lemma lines_after_break_ignored_witness :
  contains "efac" newline = false /\
  get_noise_from_pal2 to_float_example "d/J1713+0747_noise.txt"
    (["efac-430_ASP 1.05" +:+ newline] ++
     newline :: ["efac-L-wide 1.05" +:+ newline]) =
  get_noise_from_pal2 to_float_example "d/J1713+0747_noise.txt"
    ["efac-430_ASP 1.05" +:+ newline].
Proof.
  split; [reflexivity|].
  apply (lines_after_break_ignored to_float_example
           "d/J1713+0747_noise.txt" ["efac-430_ASP 1.05" +:+ newline]
           newline ["efac-L-wide 1.05" +:+ newline]); reflexivity.
Defined.

Lemma efac_line_read_witness :
  spaceless "430_ASP" = true /\ contains "efac-" "430_ASP" = false /\
  to_float_example "1.05" = Some (Finite 1.05) /\
  read_line to_float_example "J1713+0747" ∅
    ("efac-" +:+ "430_ASP" +:+ String " "%char ("1.05" +:+ newline)) =
  Some (inr (<[String.concat "_" ["J1713+0747"; "430_ASP"; "efac"]
               := Finite 1.05]> ∅)).
Proof.
  split; [reflexivity|]. split; [reflexivity|]. split; [reflexivity|].
  apply (efac_line_read to_float_example "J1713+0747" ∅ "430_ASP" "1.05"
           " "%char (ascii_of_nat 10) EmptyString (Finite 1.05));
    try reflexivity; discriminate.
Defined.

Lemma psrname_of_noisefile_witness :
  occurs "/"%char "J1713+0747" = false /\
  occurs "_"%char "J1713+0747" = false /\
  psrname_of ("noise/pal2" +:+ String "/"%char ("J1713+0747" +:+ "_noise.txt"))
  = inr "J1713+0747".
Proof.
  split; [reflexivity|]. split; [reflexivity|].
  apply (psrname_of_noisefile "noise/pal2" "J1713+0747"); reflexivity.
Defined.

End MoreInstances.

Section MoreScorerInstances.

Import Scorer.
Local Open Scope R_scope.

Lemma gwb_FoMs_rank_alike_witness :
  gwb_FoM_weak 1 1 1 = Rpower (gwb_FoM_inter 1 1 1) (26 / 3) /\
  (gwb_FoM_inter 1 1 1 < gwb_FoM_inter 2 1 1 <->
   gwb_FoM_weak 1 1 1 < gwb_FoM_weak 2 1 1).
Proof. apply (gwb_FoMs_rank_alike 1 1 1 2 1 1); lra. Defined.

Lemma gwb_FoM_weak_monotone_witness :
  gwb_FoM_weak 1 1 1 < gwb_FoM_weak 2 1 1 /\
  gwb_FoM_weak 1 2 1 < gwb_FoM_weak 1 1 1 /\
  gwb_FoM_weak 1 1 2 < gwb_FoM_weak 1 1 1.
Proof.
  destruct (gwb_FoM_weak_monotone 1 1 1) as (H1 & H2 & H3); try lra.
  split; [apply H1; lra|]. split; [apply H2; lra|apply H3; lra].
Defined.

Lemma gwb_FoM_inter_monotone_witness :
  gwb_FoM_inter 1 1 1 < gwb_FoM_inter 2 1 1 /\
  gwb_FoM_inter 1 2 1 < gwb_FoM_inter 1 1 1 /\
  gwb_FoM_inter 1 1 2 < gwb_FoM_inter 1 1 1.
Proof.
  destruct (gwb_FoM_inter_monotone 1 1 1) as (H1 & H2 & H3); try lra.
  split; [apply H1; lra|]. split; [apply H2; lra|apply H3; lra].
Defined.

Lemma FoM_positive_witness :
  0 < bwm_FoM 6 20 2 /\ 0 < gwb_FoM_weak 6 20 2 /\ 0 < gwb_FoM_inter 6 20 2.
Proof. apply (FoM_positive 6 20 2); lra. Defined.

Lemma bwm_FoM_as_documented_witness :
  bwm_FoM 6 20 2 = sqrt (6 ^ 3 / (2 ^ 2 * 20)).
Proof. apply (bwm_FoM_as_documented 6 20 2); lra. Defined.

End MoreScorerInstances.
